(** * ScribeAI server: recording sessions and summary generation

    A shallow embedding of the server side of ScribeAI:

    - [Gemini]    : [generateSummary] of [scribeai-server/src/lib/gemini.ts];
    - [Recording] : the Socket.io handlers of
                    [scribeai-server/src/sockets/recording.ts] over the
                    in-memory [activeSessions] map, the Supabase tables and
                    the notifications sent to the clients;
    - [Diarization] : the speakers of [transcribeWithDiarization], also of
                    [gemini.ts];
    - [Frontend]  : what the pages make of the durations and of the
                    notifications ([RecordingControls.tsx],
                    [SessionHistory.tsx], [sessions/[id]/page.tsx]).

    JavaScript numbers that hold timestamps and durations are integers well
    inside the exact range of a double; they are modelled as [Z].  Strings
    are [string]; the only characters the code inspects are ASCII (braces,
    brackets, digits, the letters of a tag), which no other character shares
    a byte with. *)

From Stdlib Require Import ZArith String Ascii List Lia Floats.
From stdpp Require Import gmap strings list fin_maps pretty.

Set Warnings "-register-all,-clear-no-such-hyp".
Open Scope string_scope.

(** ** JavaScript helpers *)

(** [Array.prototype.join] on an array of strings. *)
Fixpoint join (sep : string) (xs : list string) : string :=
  match xs with
  | [] => ""
  | [x] => x
  | x :: rest => x ++ sep ++ join sep rest
  end.

(** Truthiness of an optional number: [undefined] and [0] are falsy. *)
Definition truthy (t : option Z) : bool :=
  match t with
  | Some v => negb (v =? 0)%Z
  | None => false
  end.

(** ** lib/gemini.ts *)

Module Gemini.

(** JSON numbers are doubles. *)
Inductive json : Type :=
| JNull
| JBool (b : bool)
| JNumber (n : float)
| JString (s : string)
| JArray (items : list json)
| JObject (fields : list (string * json)).

(** Own property of a parsed object; with a repeated key [JSON.parse]
    keeps the last value. *)
Fixpoint field (k : string) (fields : list (string * json)) : option json :=
  match fields with
  | [] => None
  | (k', v) :: rest =>
      match field k rest with
      | Some v' => Some v'
      | None => if decide (k = k') then Some v else None
      end
  end.

(** The outcome of evaluating [parsed.k]. *)
Inductive access : Type :=
| Throws                  (* TypeError: property of null *)
| Undefined
| Value (v : json).

Definition get (parsed : json) (k : string) : access :=
  match parsed with
  | JNull => Throws
  | JObject fields =>
      match field k fields with
      | Some v => Value v
      | None => Undefined
      end
  | _ => Undefined      (* no such property on a boolean, number, string or array *)
  end.

Definition json_truthy (v : json) : bool :=
  match v with
  | JNull => false
  | JBool b => b
  | JNumber n => negb (PrimFloat.eqb n 0 || negb (PrimFloat.eqb n n))  (* 0, -0, NaN *)
  | JString s => negb (String.eqb s "")
  | JArray _ => true
  | JObject _ => true
  end.

(** [a || d] where [a] is a property access that did not throw. *)
Definition or_else (a : access) (d : json) : json :=
  match a with
  | Value v => if json_truthy v then v else d
  | _ => d
  end.

Record SummaryData : Type := mkSummary {
  summary : json;
  keyPoints : json;
  actionItems : json;
  decisions : json
}.

(** *** The regular expression [/\{[\s\S]*\}/] *)

(** Whether the character [c] occurs in [s]. *)
Fixpoint occurs (c : ascii) (s : string) : bool :=
  match s with
  | EmptyString => false
  | String c' rest => Ascii.eqb c' c || occurs c rest
  end.

(** The suffix of [s] that starts at its first opening brace. *)
Fixpoint from_open (s : string) : option string :=
  match s with
  | EmptyString => None
  | String c rest =>
      if Ascii.eqb c "{" then Some s else from_open rest
  end.

(** The longest prefix of [s] that ends with a closing brace. *)
Fixpoint upto_close (s : string) : option string :=
  match s with
  | EmptyString => None
  | String c rest =>
      match upto_close rest with
      | Some p => Some (String c p)
      | None => if Ascii.eqb c "}" then Some (String c EmptyString) else None
      end
  end.

(** [text.match(/\{[\s\S]*\}/)]: the match starts at the leftmost brace
    that can start one and, the star being greedy, runs to the last
    closing brace.  [None] is the [null] of a failed match. *)
Definition jsonMatch (text : string) : option string :=
  match from_open text with
  | Some (String c rest) =>
      match upto_close rest with
      | Some p => Some (String c p)
      | None => None
      end
  | _ => None
  end.

(** The object returned when nothing could be parsed. *)
Definition fallback (text : string) : SummaryData :=
  {| summary := JString text;
     keyPoints := JArray [];
     actionItems := JArray [];
     decisions := JArray [] |}.

(** The four property reads of the [return] inside the inner [try];
    [None] when one of them throws. *)
Definition from_parsed (parsed : json) (text : string) : option SummaryData :=
  match get parsed "summary", get parsed "keyPoints",
        get parsed "actionItems", get parsed "decisions" with
  | Throws, _, _, _ | _, Throws, _, _ | _, _, Throws, _ | _, _, _, Throws => None
  | s, k, a, d =>
      Some {| summary := or_else s (JString text);
              keyPoints := or_else k (JArray []);
              actionItems := or_else a (JArray []);
              decisions := or_else d (JArray []) |}
  end.

Section Summary.

(** [JSON.parse], a built-in of the runtime: [None] stands for the
    [SyntaxError] it throws on text that is not JSON. *)
Variable JSON_parse : string -> option json.

(** The part of [generateSummary] that runs once the model has answered
    with [text]: the inner [try]/[catch] and the fallback after it. *)
Definition parse_response (text : string) : SummaryData :=
  match jsonMatch text with
  | Some matched =>
      match JSON_parse matched with
      | Some parsed =>
          match from_parsed parsed text with
          | Some r => r
          | None => fallback text        (* caught: parseError *)
          end
      | None => fallback text            (* caught: parseError *)
      end
  | None => fallback text
  end.

(** What the calls to the model API ([generateContent], [response.text()])
    did: answered with a text, or threw. *)
Inductive api_outcome : Type :=
| Answered (text : string)
| ApiThrew (err : string).

(** [generateSummary]: [inl] is the resolved value, [inr] the message of
    the error the promise rejects with. *)
Definition generateSummary (api : api_outcome) : SummaryData + string :=
  match api with
  | Answered text => inl (parse_response text)
  | ApiThrew err => inr ("Summary generation failed: " ++ err)
  end.

(** Whether the response holds a JSON object [JSON.parse] accepts. *)
Definition parseable (text : string) : bool :=
  match jsonMatch text with
  | Some matched => bool_decide (is_Some (JSON_parse matched))
  | None => false
  end.

End Summary.

End Gemini.

(** ** sockets/recording.ts *)

Module Recording.

Definition Buffer : Type := list Byte.byte.

Inductive AudioSource : Type := microphone | tab_share.

(** The values of the [status] column of a session ([lib/supabase.ts]). *)
Inductive Status : Type := recording | paused | processing | completed | failed.

(** [interface SessionData]. *)
Record SessionData : Type := mkSessionData {
  sessionId : string;
  userId : option string;
  audioChunks : list Buffer;
  transcriptChunks : list string;
  chunkIndex : nat;
  startTime : Z;
  pausedAt : option Z;
  totalPausedDuration : Z;
  audioSource : AudioSource
}.

Definition set_pausedAt (p : option Z) (s : SessionData) : SessionData :=
  mkSessionData (sessionId s) (userId s) (audioChunks s) (transcriptChunks s)
    (chunkIndex s) (startTime s) p (totalPausedDuration s) (audioSource s).

Definition set_totalPausedDuration (d : Z) (s : SessionData) : SessionData :=
  mkSessionData (sessionId s) (userId s) (audioChunks s) (transcriptChunks s)
    (chunkIndex s) (startTime s) (pausedAt s) d (audioSource s).

(** [session.audioChunks.push(buffer); session.chunkIndex++]. *)
Definition accept_chunk (buffer : Buffer) (s : SessionData) : SessionData :=
  mkSessionData (sessionId s) (userId s) (audioChunks s ++ [buffer]) (transcriptChunks s)
    (S (chunkIndex s)) (startTime s) (pausedAt s) (totalPausedDuration s) (audioSource s).

(** [session.transcriptChunks.push(text)]. *)
Definition push_transcript (text : string) (s : SessionData) : SessionData :=
  mkSessionData (sessionId s) (userId s) (audioChunks s) (transcriptChunks s ++ [text])
    (chunkIndex s) (startTime s) (pausedAt s) (totalPausedDuration s) (audioSource s).

(** *** The store

    Rows of the Supabase tables, without the columns that only hold a title
    or a wall-clock string ([title], [created_at], [updated_at],
    [completed_at]). *)

Record SessionRow : Type := mkSessionRow {
  user_id : option string;
  status : Status;
  audio_source : AudioSource;
  duration : Z
}.

Definition set_status (st : Status) (r : SessionRow) : SessionRow :=
  mkSessionRow (user_id r) st (audio_source r) (duration r).

Definition set_duration (d : Z) (r : SessionRow) : SessionRow :=
  mkSessionRow (user_id r) (status r) (audio_source r) d.

Record ChunkRow : Type := mkChunkRow {
  chunk_session_id : string;
  chunk_index : nat;
  chunk_text : string;
  chunk_timestamp : Z;
  chunk_confidence : option float
}.

Record TranscriptRow : Type := mkTranscriptRow {
  transcript_session_id : string;
  full_text : string;
  transcript_summary : Gemini.SummaryData
}.

(** [from('sessions').insert(row)]: [id] is the key of the table, so a row
    whose id is taken is refused; the handler only logs the error. *)
Definition insert_row (id : string) (r : SessionRow)
    (tbl : gmap string SessionRow) : gmap string SessionRow :=
  match tbl !! id with
  | Some _ => tbl
  | None => <[id := r]> tbl
  end.

(** [from('sessions').update(fields).eq('id', id)]: no row, no change. *)
Definition update_row (id : string) (f : SessionRow -> SessionRow)
    (tbl : gmap string SessionRow) : gmap string SessionRow :=
  alter f id tbl.

(** *** Notifications *)

Inductive Payload : Type :=
| session_status (st : Status) (sid : string)
| chunk_processing (idx : nat) (timestamp : Z)
| transcription_update (idx : nat) (text : string) (timestamp : Z)
    (confidence : option float)
| transcription_error (idx : nat) (message : string)
| session_complete (sid : string) (seconds : Z) (transcript : string)
    (summary : Gemini.SummaryData)
| error (message : string).

Inductive Emit : Type :=
| to_room (room : string) (p : Payload)       (* io.to(room).emit(...) *)
| to_socket (socket : string) (p : Payload).  (* socket.emit(...) *)

(** *** The state of the server

    [activeSessions] holds references: a callback that captured [session]
    keeps mutating that object even after the map entry was replaced or
    deleted.  [heap] holds the objects, a reference is an index in it. *)

Record World : Type := mkWorld {
  heap : list SessionData;
  activeSessions : gmap string nat;
  sessions : gmap string SessionRow;
  transcript_chunks : list ChunkRow;
  transcripts : list TranscriptRow;
  sent : list Emit
}.

Definition set_heap (h : list SessionData) (w : World) : World :=
  mkWorld h (activeSessions w) (sessions w) (transcript_chunks w) (transcripts w) (sent w).

Definition set_activeSessions (m : gmap string nat) (w : World) : World :=
  mkWorld (heap w) m (sessions w) (transcript_chunks w) (transcripts w) (sent w).

Definition set_sessions (t : gmap string SessionRow) (w : World) : World :=
  mkWorld (heap w) (activeSessions w) t (transcript_chunks w) (transcripts w) (sent w).

Definition set_transcript_chunks (t : list ChunkRow) (w : World) : World :=
  mkWorld (heap w) (activeSessions w) (sessions w) t (transcripts w) (sent w).

Definition set_transcripts (t : list TranscriptRow) (w : World) : World :=
  mkWorld (heap w) (activeSessions w) (sessions w) (transcript_chunks w) t (sent w).

Definition emit (e : Emit) (w : World) : World :=
  mkWorld (heap w) (activeSessions w) (sessions w) (transcript_chunks w) (transcripts w)
    (sent w ++ [e]).

(** The server right after it started. *)
Definition boot : World := mkWorld [] ∅ ∅ [] [] [].

(** [activeSessions.get(sessionId)], with the reference it returns. *)
Definition get_session (w : World) (sid : string) : option (nat * SessionData) :=
  match activeSessions w !! sid with
  | Some l =>
      match heap w !! l with
      | Some session => Some (l, session)
      | None => None
      end
  | None => None
  end.

(** Mutation of the object behind a reference. *)
Definition mutate (l : nat) (f : SessionData -> SessionData) (w : World) : World :=
  set_heap (alter f l (heap w)) w.

(** *** The handlers

    A handler runs from one event to its next long wait as one step:
    JavaScript runs a callback to its next [await] without interleaving, and
    the store calls in between only touch the store.  [now] is the value of
    the [Date.now()] that the handler writes into the session or computes with;
    the [timestamp: Date.now()] fields of the notifications are left out. *)

Record StartData : Type := mkStartData {
  start_sessionId : string;
  start_userId : option string;
  start_audioSource : AudioSource
}.

(** [socket.on('start-session', ...)].  [socket.join(sessionId)] only decides
    who receives what is sent to the room; it is not part of the state. *)
Definition start_session (now : Z) (data : StartData) (w : World) : World :=
  let sid := start_sessionId data in
  let sessionData :=
    {| sessionId := sid;
       userId := start_userId data;
       audioChunks := [];
       transcriptChunks := [];
       chunkIndex := 0;
       startTime := now;
       pausedAt := None;
       totalPausedDuration := 0;
       audioSource := start_audioSource data |} in
  let l := length (heap w) in
  let w1 := set_activeSessions (<[sid := l]> (activeSessions w))
              (set_heap (heap w ++ [sessionData]) w) in
  let w2 := set_sessions
              (insert_row sid
                 {| user_id := start_userId data;
                    status := recording;
                    audio_source := start_audioSource data;
                    duration := 0 |} (sessions w1)) w1 in
  emit (to_room sid (session_status recording sid)) w2.

(** A transcription in flight: what the [then] and [catch] callbacks of
    [transcribeAudioChunk(buffer, chunkIndex)] captured. *)
Record Transcription : Type := mkTranscription {
  t_session : nat;
  t_sessionId : string;
  t_chunkIndex : nat;
  t_timestamp : Z
}.

Record ChunkData : Type := mkChunkData {
  chunk_sessionId : string;
  chunk : Buffer;
  timestamp : Z
}.

(** [socket.on('audio-chunk', ...)] up to the call of [transcribeAudioChunk]. *)
Definition audio_chunk (socket : string) (data : ChunkData) (w : World)
    : World * option Transcription :=
  let sid := chunk_sessionId data in
  match get_session w sid with
  | None => (emit (to_socket socket (error "Session not found")) w, None)
  | Some (l, session) =>
      let idx := chunkIndex session in
      let w1 := mutate l (accept_chunk (chunk data)) w in
      (emit (to_room sid (chunk_processing idx (timestamp data))) w1,
       Some (mkTranscription l sid idx (timestamp data)))
  end.

(** What [transcribeAudioChunk] resolves with. *)
Record TranscriptionResult : Type := mkResult {
  text : string;
  confidence : option float
}.

(** The [then] callback of a transcription. *)
Definition transcription_done (t : Transcription) (result : TranscriptionResult)
    (w : World) : World :=
  let w1 := mutate (t_session t) (push_transcript (text result)) w in
  let w2 := set_transcript_chunks
              (transcript_chunks w1 ++
                 [mkChunkRow (t_sessionId t) (t_chunkIndex t) (text result)
                    (t_timestamp t) (confidence result)]) w1 in
  emit (to_room (t_sessionId t)
          (transcription_update (t_chunkIndex t) (text result) (t_timestamp t)
             (confidence result))) w2.

(** The [catch] callback of a transcription; [message] is [error.message]. *)
Definition transcription_failed (t : Transcription) (message : string)
    (w : World) : World :=
  emit (to_room (t_sessionId t) (transcription_error (t_chunkIndex t) message)) w.

(** [socket.on('pause-session', ...)]. *)
Definition pause_session (socket : string) (now : Z) (sid : string) (w : World) : World :=
  match get_session w sid with
  | None => emit (to_socket socket (error "Session not found")) w
  | Some (l, _) =>
      let w1 := mutate l (set_pausedAt (Some now)) w in
      let w2 := set_sessions (update_row sid (set_status paused) (sessions w1)) w1 in
      emit (to_room sid (session_status paused sid)) w2
  end.

(** The body of [if (session.pausedAt) { ... }] and its guard. *)
Definition end_pause (now : Z) (s : SessionData) : SessionData :=
  match pausedAt s with
  | Some p =>
      if truthy (pausedAt s)
      then set_pausedAt None
             (set_totalPausedDuration (totalPausedDuration s + (now - p)) s)
      else s
  | None => s
  end.

(** [socket.on('resume-session', ...)]. *)
Definition resume_session (socket : string) (now : Z) (sid : string) (w : World) : World :=
  match get_session w sid with
  | None => emit (to_socket socket (error "Session not found")) w
  | Some (l, _) =>
      let w1 := mutate l (end_pause now) w in
      let w2 := set_sessions (update_row sid (set_status recording) (sessions w1)) w1 in
      emit (to_room sid (session_status recording sid)) w2
  end.

(** A stop in flight: what the rest of the handler holds across the two
    second wait. *)
Record Finalization : Type := mkFinalization {
  f_session : nat;
  f_sessionId : string;
  f_duration : Z
}.

(** [Math.floor((Date.now() - session.startTime - session.totalPausedDuration) / 1000)];
    [Z.div] rounds down for a positive divisor. *)
Definition stop_duration (now : Z) (s : SessionData) : Z :=
  ((now - startTime s - totalPausedDuration s) / 1000)%Z.

(** [socket.on('stop-session', ...)] up to the wait for the last chunks. *)
Definition stop_session_begin (socket : string) (now : Z) (sid : string) (w : World)
    : World * option Finalization :=
  match get_session w sid with
  | None => (emit (to_socket socket (error "Session not found")) w, None)
  | Some (l, session) =>
      let d := stop_duration now session in
      let w1 := set_sessions
                  (update_row sid (fun r => set_duration d (set_status processing r))
                     (sessions w)) w in
      (emit (to_room sid (session_status processing sid)) w1,
       Some (mkFinalization l sid d))
  end.

(** [session.transcriptChunks.join(' ')] on the captured session. *)
Definition fullTranscript (w : World) (f : Finalization) : string :=
  join " " (default [] (transcriptChunks <$> heap w !! f_session f)).

(** The rest of the stop handler, after the wait.  [outcome] is how
    [generateSummary(fullTranscript)] settled; a rejection is the only
    exception the [try] block can see (the store reports errors in its
    result), and it lands in the [catch] block. *)
Definition stop_session_finish (socket : string) (f : Finalization)
    (outcome : Gemini.SummaryData + string) (w : World) : World :=
  let sid := f_sessionId f in
  let full := fullTranscript w f in
  match outcome with
  | inl summaryData =>
      let w1 := set_transcripts (transcripts w ++ [mkTranscriptRow sid full summaryData]) w in
      let w2 := set_sessions (update_row sid (set_status completed) (sessions w1)) w1 in
      let w3 := emit (to_room sid (session_complete sid (f_duration f) full summaryData)) w2 in
      set_activeSessions (delete sid (activeSessions w3)) w3
  | inr _ =>
      let w1 := match get_session w sid with
                | Some _ => set_sessions (update_row sid (set_status failed) (sessions w)) w
                | None => w
                end in
      emit (to_socket socket (error "Failed to complete session processing")) w1
  end.

(** The callback of [activeSessions.forEach] in the disconnect handler.
    The update of the store is built but neither awaited nor chained:
    [detached_runs] says whether the store client sends such a query. *)
Definition auto_pause (detached_runs : bool) (now : Z) (w : World)
    (entry : string * nat) : World :=
  match heap w !! entry.2 with
  | Some session =>
      if truthy (pausedAt session) then w
      else
        let w1 := mutate entry.2 (set_pausedAt (Some now)) w in
        if detached_runs
        then set_sessions (update_row entry.1 (set_status paused) (sessions w1)) w1
        else w1
  | None => w
  end.

(** [socket.on('disconnect', ...)].  The traversal is synchronous: [now]
    stands for the readings of the clock it makes.  A JavaScript [Map] is
    traversed in insertion order; the visits touch different objects and
    rows, so the order does not matter. *)
Definition disconnect (detached_runs : bool) (now : Z) (w : World) : World :=
  foldl (auto_pause detached_runs now) w (map_to_list (activeSessions w)).


(** What one visit of the disconnect handler makes of a session object. *)
Definition orphaned (now : Z) (s : SessionData) : SessionData :=
  if truthy (pausedAt s) then s else set_pausedAt (Some now) s.

(** *** Runs of the server

    Everything that can happen to the server, with the values the callbacks
    captured given explicitly. *)

Inductive Input : Type :=
| StartSession (now : Z) (data : StartData)
| AudioChunk (socket : string) (data : ChunkData)
| TranscriptionDone (t : Transcription) (result : TranscriptionResult)
| TranscriptionFailed (t : Transcription) (message : string)
| PauseSession (socket : string) (now : Z) (sid : string)
| ResumeSession (socket : string) (now : Z) (sid : string)
| StopSessionBegin (socket : string) (now : Z) (sid : string)
| StopSessionFinish (socket : string) (f : Finalization)
    (outcome : Gemini.SummaryData + string)
| Disconnect (detached_runs : bool) (now : Z).

Definition handle (w : World) (i : Input) : World :=
  match i with
  | StartSession now data => start_session now data w
  | AudioChunk socket data => (audio_chunk socket data w).1
  | TranscriptionDone t result => transcription_done t result w
  | TranscriptionFailed t message => transcription_failed t message w
  | PauseSession socket now sid => pause_session socket now sid w
  | ResumeSession socket now sid => resume_session socket now sid w
  | StopSessionBegin socket now sid => (stop_session_begin socket now sid w).1
  | StopSessionFinish socket f outcome => stop_session_finish socket f outcome w
  | Disconnect detached_runs now => disconnect detached_runs now w
  end.

Definition run (inputs : list Input) : World := foldl handle boot inputs.

(** Transcriptions completing one after the other. *)
Definition complete_all (done : list (Transcription * TranscriptionResult))
    (w : World) : World :=
  foldl (fun acc c => transcription_done c.1 c.2 acc) w done.

(** Every entry of [activeSessions] refers to an object of its own. *)
Definition registry_wf (w : World) : Prop :=
  (forall sid l, activeSessions w !! sid = Some l -> l < length (heap w)) /\
  (forall sid sid' l, activeSessions w !! sid = Some l ->
     activeSessions w !! sid' = Some l -> sid = sid').

(** Every active session has its row in the store. *)
Definition rows_cover_registry (w : World) : Prop :=
  forall sid, is_Some (activeSessions w !! sid) -> is_Some (sessions w !! sid).

End Recording.

(** ** The duration as the specification words it *)

Module Spec.
Import Recording.

(** [(now - startedAt) - totalPausedDuration], minus [(now - pausedAt)] if
    the session is currently paused; in milliseconds. *)
Definition effective_duration (now : Z) (s : SessionData) : Z :=
  ((now - startTime s) - totalPausedDuration s
   - match pausedAt s with
     | Some p => now - p
     | None => 0
     end)%Z.

End Spec.

(** ** Concrete sessions *)

Module Scenarios.
Import Recording.

Definition client : string := "socket-1".
Definition t0 : Z := 1700000000000.
Definition S1 : StartData := mkStartData "S" None microphone.

(** [start(S)]. *)
Definition started : World := start_session t0 S1 boot.

(** The session object and the row that [start(S)] creates. *)
Definition fresh_session : SessionData :=
  mkSessionData "S" None [] [] 0 t0 None 0 microphone.

Definition fresh_row : SessionRow := mkSessionRow None recording microphone 0.

(** ... [pause(S)] at 10 s. *)
Definition paused_at_10s : World := pause_session client (t0 + 10000) "S" started.

(** ... [resume(S)] at 40 s. *)
Definition resumed_at_40s : World := resume_session client (t0 + 40000) "S" paused_at_10s.

(** [start(S)], then [stop(S)] at 50 s, before the handler went on to finalize. *)
Definition processing_at_50s : World :=
  (stop_session_begin client (t0 + 50000) "S" started).1.

(** [start(S)], then one chunk accepted. *)
Definition one_chunk_in : World :=
  (audio_chunk client (mkChunkData "S" [] (t0 + 30000)) started).1.

(** [start(S)], two chunks, the transcription of the second done before that
    of the first, then [stop(S)] with a summary: the sequence numbers the two
    chunks were given and the final state. *)
Definition second_chunk_done_first (b0 b1 : Buffer) (r0 r1 : TranscriptionResult)
    (summaryData : Gemini.SummaryData) : option (nat * nat * World) :=
  match audio_chunk client (mkChunkData "S" b0 (t0 + 30000)) started with
  | (w1, Some k0) =>
      match audio_chunk client (mkChunkData "S" b1 (t0 + 60000)) w1 with
      | (w2, Some k1) =>
          let w3 := transcription_done k1 r1 w2 in
          let w4 := transcription_done k0 r0 w3 in
          match stop_session_begin client (t0 + 61000) "S" w4 with
          | (w5, Some f) =>
              Some (t_chunkIndex k0, t_chunkIndex k1,
                    stop_session_finish client f (inl summaryData) w5)
          | (_, None) => None
          end
      | (_, None) => None
      end
  | (_, None) => None
  end.

End Scenarios.

(** ** Runs, object by object *)

Module Trace.
Import Recording.

(** The object that [start-session] creates. *)
Definition new_session (now : Z) (data : StartData) : SessionData :=
  mkSessionData (start_sessionId data) (start_userId data) [] [] 0 now None 0
    (start_audioSource data).

(** What one input can make of a session object that exists already. *)
Inductive changes : Input -> SessionData -> SessionData -> Prop :=
| unchanged i s : changes i s s
| chunk_accepted socket data s :
    changes (AudioChunk socket data) s (accept_chunk (chunk data) s)
| transcript_pushed t result s :
    changes (TranscriptionDone t result) s (push_transcript (text result) s)
| pause_marked socket now sid s :
    changes (PauseSession socket now sid) s (set_pausedAt (Some now) s)
| pause_ended socket now sid s :
    changes (ResumeSession socket now sid) s (end_pause now s)
| auto_paused detached_runs now s :
    changes (Disconnect detached_runs now) s (orphaned now s).

(** The reading of the clock that an input carries. *)
Definition reading (i : Input) : option Z :=
  match i with
  | StartSession now _ => Some now
  | PauseSession _ now _ => Some now
  | ResumeSession _ now _ => Some now
  | StopSessionBegin _ now _ => Some now
  | Disconnect _ now => Some now
  | _ => None
  end.

(** The clock does not run backwards: every reading is at least [T] and at
    least the readings before it. *)
Fixpoint monotone (T : Z) (inputs : list Input) : Prop :=
  match inputs with
  | [] => True
  | i :: rest =>
      match reading i with
      | Some now => (T <= now)%Z /\ monotone now rest
      | None => monotone T rest
      end
  end.

(** The last reading of the clock, [T] if there is none. *)
Fixpoint latest (T : Z) (inputs : list Input) : Z :=
  match inputs with
  | [] => T
  | i :: rest => latest (default T (reading i)) rest
  end.

(** The session an event is addressed to. *)
Definition addressed (i : Input) : option string :=
  match i with
  | StartSession _ data => Some (start_sessionId data)
  | AudioChunk _ data => Some (chunk_sessionId data)
  | PauseSession _ _ sid => Some sid
  | ResumeSession _ _ sid => Some sid
  | StopSessionBegin _ _ sid => Some sid
  | StopSessionFinish _ f _ => Some (f_sessionId f)
  | _ => None
  end.

(** The pause accounting of a session at time [T]. *)
Definition accounted (T : Z) (s : SessionData) : Prop :=
  (0 <= totalPausedDuration s)%Z /\
  (startTime s + totalPausedDuration s <= T)%Z /\
  (forall p, pausedAt s = Some p ->
     (p <= T)%Z /\ (startTime s + totalPausedDuration s <= p)%Z).

End Trace.

(** ** lib/gemini.ts: speaker tags *)

Module Diarization.
Import Gemini.

(** [\d]: an ASCII digit. *)
Definition is_digit (c : ascii) : bool :=
  ((48 <=? nat_of_ascii c)%nat && (nat_of_ascii c <=? 57)%nat)%bool.

Fixpoint all_digits (s : string) : bool :=
  match s with
  | EmptyString => true
  | String c rest => is_digit c && all_digits rest
  end.

(** The longest run of digits that [s] starts with, and what follows it. *)
Fixpoint digits (s : string) : string * string :=
  match s with
  | EmptyString => (EmptyString, EmptyString)
  | String c rest =>
      if is_digit c
      then (String c (digits rest).1, (digits rest).2)
      else (EmptyString, s)
  end.

(** [s] without the prefix [p], if it starts with it. *)
Fixpoint strip (p s : string) : option string :=
  match p, s with
  | EmptyString, _ => Some s
  | String a p', String b s' => if Ascii.eqb a b then strip p' s' else None
  | String _ _, EmptyString => None
  end.

(** The text of a speaker tag with the number [ds]. *)
Definition tag (ds : string) : string := "[Speaker " ++ ds ++ "]".

(** A match of [/\[Speaker \d+\]/] at the very start of [s].  The digits
    are taken greedily; giving some back cannot help, since what follows a
    shorter run is a digit and not the closing bracket. *)
Definition tag_at (s : string) : option string :=
  match strip "[Speaker " s with
  | Some r =>
      match digits r with
      | (String d ds, String c _) =>
          if Ascii.eqb c "]" then Some (tag (String d ds)) else None
      | _ => None
      end
  | None => None
  end.

(** [text.match(/\[Speaker \d+\]/g)], scanning from the left; after a match
    the scan goes on behind it: [skip] counts the characters of the last
    match that are still to pass. *)
Fixpoint matches_from (skip : nat) (s : string) : list string :=
  match s with
  | EmptyString => []
  | String c rest =>
      match skip with
      | S k => matches_from k rest
      | O =>
          match tag_at s with
          | Some m => m :: matches_from (String.length m - 1) rest
          | None => matches_from 0 rest
          end
      end
  end.

(** The result of [match] with the [g] flag is [null] when nothing matches. *)
Definition speakerMatches (text : string) : option (list string) :=
  match matches_from 0 text with
  | [] => None
  | ms => Some ms
  end.

(** [[...new Set(xs)]]: the elements in the order of their first occurrence. *)
Fixpoint unique (seen : list string) (xs : list string) : list string :=
  match xs with
  | [] => []
  | x :: rest =>
      if bool_decide (x ∈ seen) then unique seen rest
      else x :: unique (x :: seen) rest
  end.

Definition speakers (text : string) : option (list string) :=
  unique [] <$> speakerMatches text.

Record Diarized : Type := mkDiarized {
  d_text : string;
  d_speakers : option (list string)
}.

Section Transcribe.
(** [String.prototype.trim], a built-in of the runtime. *)
Variable trim : string -> string.

(** [transcribeWithDiarization]: the error of the API call is thrown on as
    it is. *)
Definition transcribeWithDiarization (api : api_outcome) : Diarized + string :=
  match api with
  | Answered text => inl (mkDiarized (trim text) (speakers text))
  | ApiThrew err => inr err
  end.
End Transcribe.

End Diarization.

(** ** The pages that show a session *)

Module Frontend.
Import Recording.

(** [Number.prototype.toString] and template interpolation, on an integer. *)
Definition toString (n : Z) : string := pretty n.

Fixpoint fill (k : nat) (c : ascii) : string :=
  match k with
  | O => EmptyString
  | S k' => String c (fill k' c)
  end.

(** [s.padStart(n, c)] for a one-character filler. *)
Definition padStart (n : nat) (c : ascii) (s : string) : string :=
  fill (n - String.length s) c ++ s.

Module RecordingControls.

(** [formatDuration] of the recording controls: the running clock. *)
Definition formatDuration (seconds : Z) : string :=
  let mins := (seconds / 60)%Z in
  let secs := Z.rem seconds 60 in
  padStart 2 "0" (toString mins) ++ ":" ++ padStart 2 "0" (toString secs).



End RecordingControls.

Module SessionHistory.

(** [formatDuration] of the session list and of the session page. *)
Definition formatDuration (seconds : Z) : string :=
  let mins := (seconds / 60)%Z in
  let secs := Z.rem seconds 60 in
  toString mins ++ "m " ++ toString secs ++ "s".

End SessionHistory.


End Frontend.

(** * Properties of [generateSummary] *)

Module GeminiFacts.
Import Gemini.

(** ** The match of the regular expression

    A match is the stretch from the first opening brace of the text to its
    last closing brace; there is none exactly when no closing brace follows
    an opening one. *)

Lemma occurs_app c a b : occurs c (a ++ b) = occurs c a || occurs c b.
Proof.
  induction a as [|x a IH]; simpl; [reflexivity|].
  rewrite IH. apply orb_assoc.
Qed.

Lemma from_open_split s m :
  from_open s = Some m ->
  exists pre rest, s = pre ++ m /\ m = String "{" rest /\ occurs "{" pre = false.
Proof.
  induction s as [|c s IH]; simpl; [discriminate|].
  destruct (Ascii.eqb c "{") eqn:E.
  - intros [= <-]. apply Ascii.eqb_eq in E as ->.
    exists "", s. auto.
  - intros H. destruct (IH H) as (pre & rest & -> & -> & Hpre).
    exists (String c pre), rest. simpl. rewrite E. auto.
Qed.

Lemma from_open_none s : from_open s = None -> occurs "{" s = false.
Proof.
  induction s as [|c s IH]; simpl; [reflexivity|].
  destruct (Ascii.eqb c "{"); [discriminate|]. exact IH.
Qed.

Lemma upto_close_none s : upto_close s = None -> occurs "}" s = false.
Proof.
  induction s as [|c s IH]; simpl; [reflexivity|].
  destruct (upto_close s); [discriminate|].
  destruct (Ascii.eqb c "}"); [discriminate|]. intros _. simpl. auto.
Qed.

Lemma upto_close_split s p :
  upto_close s = Some p ->
  exists mid post, p = mid ++ "}" /\ s = p ++ post /\ occurs "}" post = false.
Proof.
  revert p. induction s as [|c s IH]; simpl; [discriminate|]. intros p.
  destruct (upto_close s) as [q|] eqn:E.
  - intros [= <-]. destruct (IH q eq_refl) as (mid & post & -> & -> & Hpost).
    exists (String c mid), post. auto.
  - destruct (Ascii.eqb c "}") eqn:Ec; [|discriminate].
    intros [= <-]. apply Ascii.eqb_eq in Ec as ->.
    exists "", s. split; [reflexivity|]. split; [reflexivity|].
    by apply upto_close_none.
Qed.

Lemma jsonMatch_some text m :
  jsonMatch text = Some m ->
  exists pre mid post,
    text = pre ++ m ++ post /\ m = "{" ++ mid ++ "}" /\
    occurs "{" pre = false /\ occurs "}" post = false.
Proof.
  unfold jsonMatch. destruct (from_open text) as [s|] eqn:Ho; [|discriminate].
  destruct (from_open_split _ _ Ho) as (pre & rest & -> & -> & Hpre).
  destruct (upto_close rest) as [p|] eqn:Hc; [|discriminate].
  intros [= <-].
  destruct (upto_close_split _ _ Hc) as (mid & post & -> & -> & Hpost).
  exists pre, mid, post. simpl. auto.
Qed.

Lemma after_first_open pre0 rest pre tail c :
  occurs "{" pre0 = false ->
  pre0 ++ String "{" rest = pre ++ String "{" tail ->
  occurs c tail = true -> occurs c rest = true.
Proof.
  revert pre. induction pre0 as [|x pre0 IH]; simpl; intros pre Hno Heq Hc.
  - destruct pre as [|y pre]; simpl in Heq.
    + by injection Heq as <-.
    + injection Heq as _ ->. rewrite occurs_app. simpl.
      rewrite Hc. by rewrite !orb_true_r.
  - apply orb_false_elim in Hno as [Hx Hno].
    destruct pre as [|y pre]; simpl in Heq.
    + injection Heq as -> _. by rewrite Ascii.eqb_refl in Hx.
    + injection Heq as _ Heq. by apply (IH pre).
Qed.

Lemma jsonMatch_none text pre mid post :
  jsonMatch text = None ->
  text = pre ++ "{" ++ mid ++ "}" ++ post -> False.
Proof.
  unfold jsonMatch. intros Hm Ht.
  destruct (from_open text) as [s|] eqn:Ho.
  - destruct (from_open_split _ _ Ho) as (pre0 & rest & Hs & -> & Hpre).
    destruct (upto_close rest) as [p|] eqn:Hc; [discriminate|].
    apply upto_close_none in Hc.
    enough (occurs "}" rest = true) by congruence.
    apply (after_first_open pre0 rest pre (mid ++ "}" ++ post)); [done| |].
    { rewrite <- Hs. exact Ht. }
    rewrite occurs_app. simpl. apply orb_true_r.
  - apply from_open_none in Ho. subst text.
    rewrite occurs_app in Ho. simpl in Ho. by rewrite orb_true_r in Ho.
Qed.

Example jsonMatch_greedy :
  jsonMatch "Here: {a: {b: 1}} and {} done" = Some "{a: {b: 1}} and {}".
Proof. reflexivity. Qed.

(** ** The response of the model *)

Section Response.

Variable JSON_parse : string -> option json.

Lemma parse_response_fallback text :
  parseable JSON_parse text = false -> parse_response JSON_parse text = fallback text.
Proof.
  unfold parseable, parse_response.
  destruct (jsonMatch text) as [m|]; [|reflexivity].
  destruct (JSON_parse m); [|reflexivity].
  intros H. apply bool_decide_eq_false in H. destruct H. eauto.
Qed.

(** A parsed [null], the one value whose property reads throw, also ends in
    the fallback. *)
Lemma parse_response_null text m :
  jsonMatch text = Some m -> JSON_parse m = Some JNull ->
  parse_response JSON_parse text = fallback text.
Proof. unfold parse_response. by intros -> ->. Qed.

(** C10: whatever text the model answers with, [generateSummary] resolves
    with a structured result; when the text holds no JSON object that
    [JSON.parse] accepts, the result is the raw text as [summary] with empty
    [keyPoints], [actionItems] and [decisions]; and the promise rejects only
    when the call to the model API itself threw. *)
Theorem generateSummary_survives_any_response (text : string) :
  (exists r, generateSummary JSON_parse (Answered text) = inl r) /\
  (parseable JSON_parse text = false ->
     generateSummary JSON_parse (Answered text)
     = inl {| summary := JString text;
              keyPoints := JArray [];
              actionItems := JArray [];
              decisions := JArray [] |}) /\
  (forall api message, generateSummary JSON_parse api = inr message ->
     exists err, api = ApiThrew err /\ message = "Summary generation failed: " ++ err).
Proof.
  split; [eexists; reflexivity|]. split.
  - intros H. simpl. by rewrite parse_response_fallback.
  - intros [t|err] message; simpl; [discriminate|]. intros [= <-]. eauto.
Qed.

End Response.

Lemma generateSummary_survives_any_response_witness :
  generateSummary (fun _ => None) (Answered "The team met. {unfinished")
  = inl {| summary := JString "The team met. {unfinished";
           keyPoints := JArray [];
           actionItems := JArray [];
           decisions := JArray [] |}.
Proof.
  apply (proj1 (proj2 (generateSummary_survives_any_response (fun _ => None) _))).
  reflexivity.
Defined.

End GeminiFacts.

(** * Properties of the recording handlers *)

Module RecordingFacts.
Import Recording.

(** ** Looking a session up *)

Lemma get_session_Some w sid l s :
  get_session w sid = Some (l, s) <->
  activeSessions w !! sid = Some l /\ heap w !! l = Some s.
Proof.
  unfold get_session. split.
  - destruct (activeSessions w !! sid) as [l'|]; [|discriminate].
    destruct (heap w !! l') as [s'|] eqn:E; [|discriminate].
    intros [= -> ->]. auto.
  - intros [-> ->]. reflexivity.
Qed.

Lemma get_session_None w sid :
  activeSessions w !! sid = None -> get_session w sid = None.
Proof. unfold get_session. by intros ->. Qed.

Lemma get_session_mutate w sid l s f :
  get_session w sid = Some (l, s) ->
  get_session (mutate l f w) sid = Some (l, f s).
Proof.
  rewrite !get_session_Some. intros [Hr Hh]. split; [exact Hr|].
  simpl. by rewrite list_lookup_alter_eq, Hh.
Qed.

(** ** What each handler does to a session it finds *)

Lemma audio_chunk_found socket data w l s :
  get_session w (chunk_sessionId data) = Some (l, s) ->
  audio_chunk socket data w
  = (emit (to_room (chunk_sessionId data) (chunk_processing (chunkIndex s) (timestamp data)))
       (mutate l (accept_chunk (chunk data)) w),
     Some (mkTranscription l (chunk_sessionId data) (chunkIndex s) (timestamp data))).
Proof. intros H. unfold audio_chunk. by rewrite H. Qed.

Lemma pause_session_found socket now sid w l s :
  get_session w sid = Some (l, s) ->
  pause_session socket now sid w
  = emit (to_room sid (session_status paused sid))
      (set_sessions (update_row sid (set_status paused) (sessions w))
         (mutate l (set_pausedAt (Some now)) w)).
Proof. intros H. unfold pause_session. by rewrite H. Qed.

Lemma resume_session_found socket now sid w l s :
  get_session w sid = Some (l, s) ->
  get_session (resume_session socket now sid w) sid = Some (l, end_pause now s) /\
  sessions (resume_session socket now sid w)
  = update_row sid (set_status recording) (sessions w) /\
  sent (resume_session socket now sid w)
  = (sent w ++ [to_room sid (session_status recording sid)])%list.
Proof.
  intros H. unfold resume_session. rewrite H. split; [|done].
  apply (get_session_mutate _ _ _ _ (end_pause now)) in H. exact H.
Qed.

Lemma stop_session_begin_found socket now sid w l s :
  get_session w sid = Some (l, s) ->
  stop_session_begin socket now sid w
  = (emit (to_room sid (session_status processing sid))
       (set_sessions
          (update_row sid (fun r => set_duration (stop_duration now s) (set_status processing r))
             (sessions w)) w),
     Some (mkFinalization l sid (stop_duration now s))).
Proof. intros H. unfold stop_session_begin. by rewrite H. Qed.

(** A finished transcription lands at the end of [transcriptChunks], whatever
    its sequence number. *)
Lemma transcription_done_appends t result w s :
  heap w !! t_session t = Some s ->
  transcriptChunks <$> heap (transcription_done t result w) !! t_session t
  = Some (transcriptChunks s ++ [text result])%list.
Proof. intros H. simpl. by rewrite list_lookup_alter_eq, H. Qed.

(** So the transcript of a session lists its chunks in the order in which
    their transcriptions completed. *)
Lemma complete_all_appends done :
  forall w l s,
    heap w !! l = Some s ->
    Forall (fun c => t_session c.1 = l) done ->
    transcriptChunks <$> heap (complete_all done w) !! l
    = Some (transcriptChunks s ++ map (fun c => text c.2) done)%list.
Proof.
  unfold complete_all.
  induction done as [|c done IH]; intros w l s Hs Hall; simpl.
  - by rewrite Hs, app_nil_r.
  - apply Forall_cons in Hall as [Hc Hall].
    rewrite (IH _ l (push_transcript (text c.2) s)); [|simpl|done].
    + simpl. by rewrite <- app_assoc.
    + by rewrite Hc, list_lookup_alter_eq, Hs.
Qed.

(** ** Ingestion *)

(** C2 (amended): ingesting for a session id with no active session fails
    with "Session not found" and changes nothing else; for an active session
    the chunk is accepted whatever the status of the session: it gets the
    current [chunkIndex], which is then incremented, and "chunk-processing"
    is the only notification. *)
Theorem audio_chunk_accepts_in_any_status socket data w :
  (activeSessions w !! chunk_sessionId data = None ->
     audio_chunk socket data w
     = (emit (to_socket socket (error "Session not found")) w, None)) /\
  (forall l s, get_session w (chunk_sessionId data) = Some (l, s) ->
     exists w',
       audio_chunk socket data w
       = (w', Some (mkTranscription l (chunk_sessionId data) (chunkIndex s) (timestamp data))) /\
       get_session w' (chunk_sessionId data) = Some (l, accept_chunk (chunk data) s) /\
       chunkIndex (accept_chunk (chunk data) s) = S (chunkIndex s) /\
       sessions w' = sessions w /\
       sent w' = (sent w ++ [to_room (chunk_sessionId data)
                               (chunk_processing (chunkIndex s) (timestamp data))])%list).
Proof.
  split.
  - intros H. unfold audio_chunk. by rewrite (get_session_None _ _ H).
  - intros l s H. rewrite (audio_chunk_found socket data w l s H).
    eexists. split; [reflexivity|]. split; [|done].
    apply (get_session_mutate _ _ _ _ (accept_chunk (chunk data))) in H. exact H.
Qed.

(** ** Pause and resume *)

(** C6 (amended): a pause of an active session is accepted whatever its
    status, also when it is already paused: [pausedAt] is overwritten with
    the current time, the status [paused] is persisted and notified again,
    and no error is sent. *)
Theorem pause_session_overwrites_pausedAt socket now sid w l s :
  get_session w sid = Some (l, s) ->
  get_session (pause_session socket now sid w) sid = Some (l, set_pausedAt (Some now) s) /\
  sessions (pause_session socket now sid w) = update_row sid (set_status paused) (sessions w) /\
  sent (pause_session socket now sid w)
  = (sent w ++ [to_room sid (session_status paused sid)])%list.
Proof.
  intros H. rewrite (pause_session_found socket now sid w l s H).
  split; [|split; reflexivity].
  apply (get_session_mutate _ _ _ _ (set_pausedAt (Some now))) in H. exact H.
Qed.

(** C7: for a session in [recording] status, a pause at [t1] followed by a
    resume at [t2] adds exactly [t2 - t1] to [totalPausedDuration], clears
    [pausedAt], leaves [chunkIndex] and [transcriptChunks] as they were, and
    the status is [recording] again. *)
Theorem pause_then_resume socket t1 t2 sid w l s row :
  get_session w sid = Some (l, s) ->
  sessions w !! sid = Some row ->
  status row = recording ->
  t1 <> 0%Z ->
  exists s',
    get_session (resume_session socket t2 sid (pause_session socket t1 sid w)) sid
      = Some (l, s') /\
    totalPausedDuration s' = (totalPausedDuration s + (t2 - t1))%Z /\
    pausedAt s' = None /\
    chunkIndex s' = chunkIndex s /\
    transcriptChunks s' = transcriptChunks s /\
    sessions (resume_session socket t2 sid (pause_session socket t1 sid w)) !! sid
      = Some row /\
    sent (resume_session socket t2 sid (pause_session socket t1 sid w))
      = (sent w ++ [to_room sid (session_status paused sid);
                    to_room sid (session_status recording sid)])%list.
Proof.
  intros H Hrow Hst Ht1.
  assert (Hp : get_session (pause_session socket t1 sid w) sid
               = Some (l, set_pausedAt (Some t1) s)).
  { rewrite (pause_session_found socket t1 sid w l s H).
    exact (get_session_mutate _ _ _ _ (set_pausedAt (Some t1)) H). }
  assert (Hps : sessions (pause_session socket t1 sid w)
                = update_row sid (set_status paused) (sessions w))
    by by rewrite (pause_session_found socket t1 sid w l s H).
  assert (Hpe : sent (pause_session socket t1 sid w)
                = (sent w ++ [to_room sid (session_status paused sid)])%list)
    by by rewrite (pause_session_found socket t1 sid w l s H).
  destruct (resume_session_found socket t2 sid _ l _ Hp) as (Hr & Hrs & Hre).
  eexists. split; [exact Hr|].
  unfold end_pause. simpl.
  destruct (Z.eqb_spec t1 0) as [|_]; [done|]. simpl.
  do 4 (split; [reflexivity|]). split.
  - rewrite Hrs, Hps. unfold update_row.
    rewrite !lookup_alter_eq, Hrow. simpl.
    destruct row as [u st a d]. simpl in Hst. by subst st.
  - rewrite Hre, Hpe. by rewrite <- app_assoc.
Qed.

(** ** Starting a session *)

(** C8 (amended): starting a session under an id that already has an active
    session does not fail: the entry of the id now refers to a fresh
    [SessionData] (no chunks, [chunkIndex] 0, started now), the object it
    referred to is left as it was but is no longer registered, the other
    entries are untouched, and "session-status: recording" is the only
    notification.  The map still holds one session per id. *)
Theorem start_session_replaces_existing now data w l0 s0 :
  get_session w (start_sessionId data) = Some (l0, s0) ->
  get_session (start_session now data w) (start_sessionId data)
  = Some (length (heap w),
          mkSessionData (start_sessionId data) (start_userId data) [] [] 0 now None 0
            (start_audioSource data)) /\
  heap (start_session now data w) !! l0 = Some s0 /\
  (forall sid, sid <> start_sessionId data ->
     activeSessions (start_session now data w) !! sid = activeSessions w !! sid) /\
  sent (start_session now data w)
  = (sent w ++ [to_room (start_sessionId data)
                  (session_status recording (start_sessionId data))])%list.
Proof.
  intros H. apply get_session_Some in H as [Hr Hh].
  split; [|split; [|split]].
  - apply get_session_Some. simpl. split; [apply lookup_insert_eq|].
    by rewrite lookup_app_r, Nat.sub_diag.
  - simpl. rewrite lookup_app_l; [done|]. by eapply lookup_lt_Some.
  - intros sid Hne. simpl. by rewrite lookup_insert_ne.
  - reflexivity.
Qed.

(** ** Stopping a session *)

(** C9: when the transcription of a chunk fails, nothing is added to
    [transcriptChunks], "transcription-error" with the chunk's index is
    sent, and a later stop whose summary is generated ends with the session
    [completed], removed from [activeSessions], and the transcript made of
    the other chunks only. *)
Theorem failed_chunk_does_not_abort socket data message now summaryData w l s row :
  get_session w (chunk_sessionId data) = Some (l, s) ->
  sessions w !! chunk_sessionId data = Some row ->
  exists w1 t w3 f,
    audio_chunk socket data w = (w1, Some t) /\
    t_chunkIndex t = chunkIndex s /\
    transcriptChunks <$> heap (transcription_failed t message w1) !! l
      = Some (transcriptChunks s) /\
    sent (transcription_failed t message w1)
      = (sent w1 ++ [to_room (chunk_sessionId data)
                       (transcription_error (chunkIndex s) message)])%list /\
    stop_session_begin socket now (chunk_sessionId data) (transcription_failed t message w1)
      = (w3, Some f) /\
    status <$> sessions (stop_session_finish socket f (inl summaryData) w3)
                 !! chunk_sessionId data = Some completed /\
    transcripts (stop_session_finish socket f (inl summaryData) w3)
      = (transcripts w ++ [mkTranscriptRow (chunk_sessionId data)
                             (join " " (transcriptChunks s)) summaryData])%list /\
    last (sent (stop_session_finish socket f (inl summaryData) w3))
      = Some (to_room (chunk_sessionId data)
                (session_complete (chunk_sessionId data) (f_duration f)
                   (join " " (transcriptChunks s)) summaryData)) /\
    activeSessions (stop_session_finish socket f (inl summaryData) w3)
      !! chunk_sessionId data = None.
Proof.
  intros H Hrow.
  pose proof (audio_chunk_found socket data w l s H) as Ha.
  pose proof (get_session_mutate _ _ _ _ (accept_chunk (chunk data)) H) as Hg.
  set (w1 := emit (to_room (chunk_sessionId data)
                     (chunk_processing (chunkIndex s) (timestamp data)))
               (mutate l (accept_chunk (chunk data)) w)) in *.
  set (t := mkTranscription l (chunk_sessionId data) (chunkIndex s) (timestamp data)) in *.
  assert (Hg2 : get_session (transcription_failed t message w1) (chunk_sessionId data)
                = Some (l, accept_chunk (chunk data) s)) by exact Hg.
  pose proof (stop_session_begin_found socket now _ _ _ _ Hg2) as Hb.
  apply get_session_Some in Hg as [Hr Hh]. simpl in Hh.
  exists w1, t. do 2 eexists. split; [exact Ha|]. split; [reflexivity|].
  split; [simpl; by rewrite Hh|]. split; [reflexivity|].
  split; [exact Hb|].
  unfold stop_session_finish, fullTranscript. simpl.
  rewrite Hh. simpl. unfold update_row.
  rewrite !lookup_alter_eq, Hrow. simpl.
  split; [done|]. split; [done|].
  split; [by rewrite last_snoc|]. apply lookup_delete_eq.
Qed.

(** C3: when the summary cannot be generated, the stop handler persists the
    status [failed] and sends an error to the caller, but the session is
    still in [activeSessions] afterwards, unchanged: the [catch] block has
    no [activeSessions.delete]. *)
Theorem failed_summary_leaves_session_registered socket now sid err w l s row :
  get_session w sid = Some (l, s) ->
  sessions w !! sid = Some row ->
  exists w1 f,
    stop_session_begin socket now sid w = (w1, Some f) /\
    status <$> sessions (stop_session_finish socket f (inr err) w1) !! sid = Some failed /\
    sent (stop_session_finish socket f (inr err) w1)
      = (sent w1 ++ [to_socket socket (error "Failed to complete session processing")])%list /\
    get_session (stop_session_finish socket f (inr err) w1) sid = Some (l, s).
Proof.
  intros H Hrow.
  rewrite (stop_session_begin_found socket now sid w l s H).
  do 2 eexists. split; [reflexivity|].
  unfold stop_session_finish. simpl.
  match goal with |- context [get_session ?w0 sid] =>
    assert (Hg : get_session w0 sid = Some (l, s)) by exact H end.
  rewrite Hg. simpl. unfold update_row. rewrite !lookup_alter_eq, Hrow.
  split; [done|]. split; [done|]. exact H.
Qed.

(** The successful path does remove the session. *)
Lemma summarised_session_is_removed socket f summaryData w :
  activeSessions (stop_session_finish socket f (inl summaryData) w) !! f_sessionId f = None.
Proof. simpl. apply lookup_delete_eq. Qed.

(** ** The duration *)

(** The duration a stop computes never looks at [pausedAt]. *)
Lemma stop_session_duration socket now sid w l s :
  get_session w sid = Some (l, s) ->
  exists w1 f,
    stop_session_begin socket now sid w = (w1, Some f) /\
    f_duration f = ((now - startTime s - totalPausedDuration s) / 1000)%Z /\
    duration <$> sessions w1 !! sid = (fun _ => f_duration f) <$> sessions w !! sid.
Proof.
  intros H. rewrite (stop_session_begin_found socket now sid w l s H).
  do 2 eexists. split; [reflexivity|]. split; [reflexivity|].
  simpl. unfold update_row. rewrite lookup_alter_eq.
  by destruct (sessions w !! sid).
Qed.

(** While the session is not paused the code and the formula agree, up to
    the rounding to whole seconds. *)
Lemma stop_duration_not_paused now s :
  pausedAt s = None ->
  stop_duration now s = (Spec.effective_duration now s / 1000)%Z.
Proof.
  intros H. unfold stop_duration, Spec.effective_duration. rewrite H.
  f_equal. lia.
Qed.

Lemma stop_duration_nonneg now s :
  (startTime s + totalPausedDuration s <= now)%Z -> (0 <= stop_duration now s)%Z.
Proof. intros H. unfold stop_duration. apply Z.div_pos; lia. Qed.

(** Start, pause at 10 s, resume at 40 s, stop at 50 s: 20 seconds. *)
Example stop_after_resume_20s :
  f_duration <$> (stop_session_begin Scenarios.client (Scenarios.t0 + 50000) "S"
                    Scenarios.resumed_at_40s).2
  = Some 20%Z.
Proof. vm_compute. reflexivity. Qed.

(** C5: start, pause at 10 s, no resume, stop at 50 s.  The handler reports
    50 seconds: the pause in progress is not subtracted.  The formula of the
    specification gives 10 seconds. *)
Theorem stop_while_paused_reports_50s :
  f_duration <$> (stop_session_begin Scenarios.client (Scenarios.t0 + 50000) "S"
                    Scenarios.paused_at_10s).2
  = Some 50%Z /\
  (fun ls => (Spec.effective_duration (Scenarios.t0 + 50000) ls.2 / 1000)%Z)
    <$> get_session Scenarios.paused_at_10s "S"
  = Some 10%Z.
Proof. split; vm_compute; reflexivity. Qed.

(** ** The order of the transcript *)

(** C1: two chunks are accepted with the sequence numbers 0 and 1; the
    transcription of the second completes first.  The transcript that the
    stop persists is the text of the second chunk, a space, and the text of
    the first: the order of completion, not the order of the sequence
    numbers. *)
Theorem transcript_follows_completion_order b0 b1 r0 r1 summaryData :
  exists w,
    Scenarios.second_chunk_done_first b0 b1 r0 r1 summaryData = Some (0, 1, w) /\
    transcripts w = [mkTranscriptRow "S" (text r1 ++ " " ++ text r0) summaryData] /\
    status <$> sessions w !! "S" = Some completed.
Proof.
  eexists. split; [vm_compute; reflexivity|].
  split; vm_compute; reflexivity.
Qed.

(** With the texts "hello" for the first chunk and "world" for the second. *)
Example world_before_hello :
  (fun r => transcripts r.2)
    <$> Scenarios.second_chunk_done_first [] [] (mkResult "hello" None)
          (mkResult "world" None) (Gemini.fallback "")
  = Some [mkTranscriptRow "S" "world hello" (Gemini.fallback "")].
Proof. vm_compute. reflexivity. Qed.

(** ** Disconnection *)

Section Disconnect.

Variables (detached_runs : bool) (now : Z).

Lemma auto_pause_registry w e :
  activeSessions (auto_pause detached_runs now w e) = activeSessions w.
Proof.
  unfold auto_pause. destruct (heap w !! e.2) as [s|]; [|done].
  destruct (truthy (pausedAt s)); [done|]. by destruct detached_runs.
Qed.

Lemma auto_pause_heap_other w e l :
  l <> e.2 -> heap (auto_pause detached_runs now w e) !! l = heap w !! l.
Proof.
  intros Hne. unfold auto_pause. destruct (heap w !! e.2) as [s|]; [|done].
  destruct (truthy (pausedAt s)); [done|].
  destruct detached_runs; simpl; by rewrite list_lookup_alter_ne.
Qed.

Lemma auto_pause_row_other w e sid :
  sid <> e.1 -> sessions (auto_pause detached_runs now w e) !! sid = sessions w !! sid.
Proof.
  intros Hne. unfold auto_pause. destruct (heap w !! e.2) as [s|]; [|done].
  destruct (truthy (pausedAt s)); [done|].
  destruct detached_runs; simpl; [|done].
  unfold update_row. by rewrite lookup_alter_ne.
Qed.

Lemma auto_pause_visit w sid l s :
  heap w !! l = Some s ->
  heap (auto_pause detached_runs now w (sid, l)) !! l = Some (orphaned now s) /\
  sessions (auto_pause detached_runs now w (sid, l)) !! sid
  = (if truthy (pausedAt s) || negb detached_runs then sessions w !! sid
     else set_status paused <$> sessions w !! sid).
Proof.
  intros H. unfold auto_pause, orphaned. simpl. rewrite H.
  destruct (truthy (pausedAt s)); [done|].
  destruct detached_runs; simpl; rewrite list_lookup_alter_eq, H; [|done].
  split; [done|]. unfold update_row. by rewrite lookup_alter_eq.
Qed.

Lemma visits_registry es :
  forall w, activeSessions (foldl (auto_pause detached_runs now) w es) = activeSessions w.
Proof.
  induction es as [|e es IH]; intros w; simpl; [done|].
  by rewrite IH, auto_pause_registry.
Qed.

Lemma visits_heap_other es l :
  l ∉ es.*2 ->
  forall w, heap (foldl (auto_pause detached_runs now) w es) !! l = heap w !! l.
Proof.
  induction es as [|e es IH]; intros Hl w; simpl; [done|].
  rewrite fmap_cons in Hl. apply not_elem_of_cons in Hl as [Hne Hl].
  by rewrite IH, auto_pause_heap_other.
Qed.

Lemma visits_row_other es sid :
  sid ∉ es.*1 ->
  forall w, sessions (foldl (auto_pause detached_runs now) w es) !! sid = sessions w !! sid.
Proof.
  induction es as [|e es IH]; intros Hs w; simpl; [done|].
  rewrite fmap_cons in Hs. apply not_elem_of_cons in Hs as [Hne Hs].
  by rewrite IH, auto_pause_row_other.
Qed.

Lemma visits_heap_length es :
  forall w, length (heap (foldl (auto_pause detached_runs now) w es)) = length (heap w).
Proof.
  induction es as [|e es IH]; intros w; simpl; [done|]. rewrite IH.
  unfold auto_pause. destruct (heap w !! e.2) as [s|]; [|done].
  destruct (truthy (pausedAt s)); [done|].
  destruct detached_runs; simpl; apply length_alter.
Qed.

Lemma visits_rows_dom es sid :
  forall w, is_Some (sessions (foldl (auto_pause detached_runs now) w es) !! sid)
            <-> is_Some (sessions w !! sid).
Proof.
  induction es as [|e es IH]; intros w; simpl; [done|]. rewrite IH.
  unfold auto_pause. destruct (heap w !! e.2) as [s|]; [|done].
  destruct (truthy (pausedAt s)); [done|].
  destruct detached_runs; simpl; [|done]. apply lookup_alter_is_Some.
Qed.

(** Visits of sessions that are all paused change nothing. *)
Lemma visits_noop es :
  forall w,
    (forall e s, e ∈ es -> heap w !! e.2 = Some s -> truthy (pausedAt s) = true) ->
    (forall e, e ∈ es -> is_Some (heap w !! e.2)) ->
    foldl (auto_pause detached_runs now) w es = w.
Proof.
  induction es as [|e es IH]; intros w Ht Hs; simpl; [done|].
  assert (auto_pause detached_runs now w e = w) as ->.
  { unfold auto_pause. destruct (Hs e) as [s Hes]; [left|].
    rewrite Hes. by rewrite (Ht e s); [|left|]. }
  apply IH; intros e' **; [eapply Ht|eapply Hs]; try right; eauto.
Qed.

Lemma disconnect_registry w :
  activeSessions (disconnect detached_runs now w) = activeSessions w.
Proof. apply visits_registry. Qed.

(** The traversal reaches every session once, and no other visit touches
    its object or its row. *)
Lemma disconnect_session w sid l s :
  registry_wf w ->
  get_session w sid = Some (l, s) ->
  heap (disconnect detached_runs now w) !! l = Some (orphaned now s) /\
  sessions (disconnect detached_runs now w) !! sid
  = (if truthy (pausedAt s) || negb detached_runs then sessions w !! sid
     else set_status paused <$> sessions w !! sid).
Proof.
  intros [_ Hinj] [Hr Hh]%get_session_Some. unfold disconnect.
  pose proof (NoDup_fst_map_to_list (activeSessions w)) as Hnd.
  assert (Hin : (sid, l) ∈ map_to_list (activeSessions w))
    by by apply elem_of_map_to_list.
  assert (Hall : forall sid' l', (sid', l') ∈ map_to_list (activeSessions w) ->
                   l' = l -> sid' = sid).
  { intros sid' l' Hin' ->. apply elem_of_map_to_list in Hin'. by eapply Hinj. }
  revert Hnd Hin Hall. generalize (map_to_list (activeSessions w)). intros es Hnd Hin Hall.
  apply list_elem_of_split in Hin as (es1 & es2 & ->).
  rewrite fmap_app, fmap_cons in Hnd. simpl in Hnd.
  apply NoDup_app in Hnd as (_ & Hdisj & Hnd2).
  apply NoDup_cons in Hnd2 as [Hsid2 _].
  assert (Hsid1 : sid ∉ es1.*1).
  { intros Hc. apply (Hdisj sid Hc). left. }
  assert (Hl1 : l ∉ es1.*2).
  { intros ([sid' l'] & Heq & Hin')%list_elem_of_fmap. simpl in Heq. subst l'.
    assert (sid' = sid) as -> by (eapply Hall; [|done]; set_solver).
    apply Hsid1. apply list_elem_of_fmap. by exists (sid, l). }
  assert (Hl2 : l ∉ es2.*2).
  { intros ([sid' l'] & Heq & Hin')%list_elem_of_fmap. simpl in Heq. subst l'.
    assert (sid' = sid) as -> by (eapply Hall; [|done]; set_solver).
    apply Hsid2. apply list_elem_of_fmap. by exists (sid, l). }
  rewrite foldl_app. simpl.
  rewrite (visits_heap_other es2 l Hl2), (visits_row_other es2 sid Hsid2).
  assert (Hha : heap (foldl (auto_pause detached_runs now) w es1) !! l = Some s)
    by by rewrite visits_heap_other.
  destruct (auto_pause_visit _ sid l s Hha) as [-> ->].
  by rewrite visits_row_other.
Qed.

End Disconnect.

Lemma orphaned_truthy now s : now <> 0%Z -> truthy (pausedAt (orphaned now s)) = true.
Proof.
  intros Hnow. unfold orphaned. destruct (truthy (pausedAt s)) eqn:E; [done|].
  simpl. by destruct (Z.eqb_spec now 0).
Qed.

(** What a disconnect does, session by session: it sets [pausedAt] to the
    current time, and builds the update of the status to [paused], for
    exactly the active sessions whose [pausedAt] is not set; a session whose
    [pausedAt] is set is left as it is, object and row; every session stays
    in [activeSessions]; and a second disconnect right after changes
    nothing. *)
Theorem disconnect_pauses_unpaused_sessions detached_runs now w sid l s :
  registry_wf w ->
  now <> 0%Z ->
  get_session w sid = Some (l, s) ->
  get_session (disconnect detached_runs now w) sid
  = Some (l, if truthy (pausedAt s) then s else set_pausedAt (Some now) s) /\
  sessions (disconnect detached_runs now w) !! sid
  = (if truthy (pausedAt s) || negb detached_runs then sessions w !! sid
     else set_status paused <$> sessions w !! sid) /\
  activeSessions (disconnect detached_runs now w) = activeSessions w /\
  (forall now', disconnect detached_runs now' (disconnect detached_runs now w)
                = disconnect detached_runs now w).
Proof.
  intros Hwf Hnow H.
  destruct (disconnect_session detached_runs now w sid l s Hwf H) as [Hh Hs].
  split; [|split; [exact Hs|split; [apply disconnect_registry|]]].
  - apply get_session_Some. split; [|exact Hh].
    rewrite disconnect_registry. by apply get_session_Some in H as [? _].
  - intros now'. unfold disconnect at 1. rewrite disconnect_registry.
    assert (Hafter : forall sid' l', activeSessions w !! sid' = Some l' ->
              exists s0, heap (disconnect detached_runs now w) !! l' = Some (orphaned now s0)).
    { intros sid' l' Hin. destruct Hwf as [Hlen Hinj]. pose proof (Hlen _ _ Hin) as Hlt.
      apply lookup_lt_is_Some in Hlt as [s0 Hs0]. exists s0.
      apply (disconnect_session detached_runs now w sid' l' s0 (conj Hlen Hinj)).
      by apply get_session_Some. }
    apply visits_noop.
    + intros [sid' l'] s' Hin%elem_of_map_to_list Hl'. simpl in Hl'.
      destruct (Hafter _ _ Hin) as [s0 Hs0].
      rewrite Hs0 in Hl'. injection Hl' as <-. by apply orphaned_truthy.
    + intros [sid' l'] Hin%elem_of_map_to_list. simpl.
      destruct (Hafter _ _ Hin) as [s0 Hs0]. by rewrite Hs0.
Qed.

(** ** What every run of the server preserves *)

Lemma registry_wf_same w w' :
  activeSessions w' = activeSessions w ->
  length (heap w') = length (heap w) ->
  registry_wf w -> registry_wf w'.
Proof. intros Hr Hl [H1 H2]. split; rewrite Hr; [rewrite Hl|]; done. Qed.

Lemma registry_wf_boot : registry_wf boot.
Proof. split; simpl; intros *; by rewrite lookup_empty. Qed.

Lemma registry_wf_start now data w : registry_wf w -> registry_wf (start_session now data w).
Proof.
  intros [H1 H2]. split; simpl.
  - intros sid l. rewrite length_app. simpl.
    intros [[_ <-]|[_ H]]%lookup_insert_Some; [lia|]. apply H1 in H. lia.
  - intros sid sid' l.
    intros [[<- <-]|[Hn H]]%lookup_insert_Some [[<- Hl]|[Hn' H']]%lookup_insert_Some;
      try done.
    + apply H1 in H'. lia.
    + apply H1 in H. lia.
    + by eapply H2.
Qed.

Lemma registry_wf_handle w i : registry_wf w -> registry_wf (handle w i).
Proof.
  intros Hwf. destruct i; simpl.
  - by apply registry_wf_start.
  - unfold audio_chunk. destruct (get_session w _) as [[l s]|]; simpl;
      (eapply registry_wf_same; [| |exact Hwf]; simpl; [done|]);
      [apply length_alter|done].
  - eapply registry_wf_same; [| |exact Hwf]; simpl; [done|apply length_alter].
  - by eapply registry_wf_same; [| |exact Hwf].
  - unfold pause_session. destruct (get_session w sid) as [[l s]|];
      (eapply registry_wf_same; [| |exact Hwf]; simpl; [done|]);
      [apply length_alter|done].
  - unfold resume_session. destruct (get_session w sid) as [[l s]|];
      (eapply registry_wf_same; [| |exact Hwf]; simpl; [done|]);
      [apply length_alter|done].
  - unfold stop_session_begin. destruct (get_session w sid) as [[l s]|];
      by (eapply registry_wf_same; [| |exact Hwf]).
  - unfold stop_session_finish. destruct outcome as [sd|err].
    + destruct Hwf as [H1 H2]. split; simpl.
      * intros sid l [_ H]%lookup_delete_Some. by eapply H1.
      * intros sid sid' l [_ H]%lookup_delete_Some [_ H']%lookup_delete_Some.
        by eapply H2.
    + destruct (get_session w (f_sessionId f)); by (eapply registry_wf_same; [| |exact Hwf]).
  - eapply registry_wf_same; [| |exact Hwf].
    + apply visits_registry.
    + apply visits_heap_length.
Qed.

Lemma registry_wf_run inputs : registry_wf (run inputs).
Proof.
  unfold run. induction inputs as [|i inputs IH] using rev_ind; [apply registry_wf_boot|].
  rewrite foldl_app. simpl. by apply registry_wf_handle.
Qed.

Lemma rows_cover_registry_handle w i :
  rows_cover_registry w -> rows_cover_registry (handle w i).
Proof.
  unfold rows_cover_registry. intros Hc. destruct i; simpl.
  - intros sid. simpl. unfold insert_row.
    destruct (decide (sid = start_sessionId data)) as [->|Hne].
    + intros _. destruct (sessions w !! start_sessionId data) eqn:E; [by rewrite E|].
      by rewrite lookup_insert_eq.
    + rewrite lookup_insert_ne by done. intros H%Hc.
      destruct (sessions w !! start_sessionId data); [done|].
      by rewrite lookup_insert_ne.
  - unfold audio_chunk. by destruct (get_session w _) as [[l s]|].
  - done.
  - done.
  - unfold pause_session. destruct (get_session w sid) as [[l s]|]; simpl; [|done].
    intros sid' H%Hc. by apply lookup_alter_is_Some.
  - unfold resume_session. destruct (get_session w sid) as [[l s]|]; simpl; [|done].
    intros sid' H%Hc. by apply lookup_alter_is_Some.
  - unfold stop_session_begin. destruct (get_session w sid) as [[l s]|]; simpl; [|done].
    intros sid' H%Hc. by apply lookup_alter_is_Some.
  - unfold stop_session_finish. destruct outcome as [sd|err]; simpl.
    + intros sid [x [_ H]%lookup_delete_Some]. apply lookup_alter_is_Some. eauto.
    + destruct (get_session w (f_sessionId f)); simpl; [|done].
      intros sid' H%Hc. by apply lookup_alter_is_Some.
  - intros sid. unfold disconnect. rewrite visits_registry, visits_rows_dom. apply Hc.
Qed.

Lemma rows_cover_registry_run inputs : rows_cover_registry (run inputs).
Proof.
  unfold run. induction inputs as [|i inputs IH] using rev_ind.
  - intros sid [x H]. simpl in H. by rewrite lookup_empty in H.
  - rewrite foldl_app. simpl. by apply rows_cover_registry_handle.
Qed.

(** ** The properties on concrete sessions *)

Lemma started_session :
  get_session Scenarios.started "S" = Some (0, Scenarios.fresh_session) /\
  sessions Scenarios.started !! "S" = Some Scenarios.fresh_row.
Proof. split; vm_compute; reflexivity. Qed.

Lemma registry_wf_started : registry_wf Scenarios.started.
Proof. exact (registry_wf_run [StartSession Scenarios.t0 Scenarios.S1]). Qed.

(** A chunk that arrives while the session is paused is accepted. *)
Lemma audio_chunk_accepts_in_any_status_witness :
  exists w',
    audio_chunk Scenarios.client (mkChunkData "S" [] (Scenarios.t0 + 11000))
      Scenarios.paused_at_10s
    = (w', Some (mkTranscription 0 "S" 0 (Scenarios.t0 + 11000))).
Proof.
  destruct (proj2 (audio_chunk_accepts_in_any_status Scenarios.client
                     (mkChunkData "S" [] (Scenarios.t0 + 11000)) Scenarios.paused_at_10s)
              0 (set_pausedAt (Some (Scenarios.t0 + 10000)%Z) Scenarios.fresh_session))
    as (w' & H & _); [vm_compute; reflexivity|].
  exists w'. exact H.
Defined.

(** Against C2 as stated: the session is paused, the chunk is accepted with
    index 0, [chunkIndex] goes from 0 to 1, and no error is sent. *)
Lemma ingest_while_paused_is_accepted :
  status <$> sessions Scenarios.paused_at_10s !! "S" = Some paused /\
  (fun ls => chunkIndex ls.2) <$> get_session Scenarios.paused_at_10s "S" = Some 0 /\
  (fun ls => chunkIndex ls.2)
    <$> get_session (audio_chunk Scenarios.client (mkChunkData "S" [] (Scenarios.t0 + 11000))
                       Scenarios.paused_at_10s).1 "S" = Some 1 /\
  sent (audio_chunk Scenarios.client (mkChunkData "S" [] (Scenarios.t0 + 11000))
          Scenarios.paused_at_10s).1
  = (sent Scenarios.paused_at_10s
     ++ [to_room "S" (chunk_processing 0 (Scenarios.t0 + 11000))])%list.
Proof. repeat split; vm_compute; reflexivity. Qed.

Lemma pause_session_overwrites_pausedAt_witness :
  get_session (pause_session Scenarios.client (Scenarios.t0 + 20000) "S"
                 Scenarios.paused_at_10s) "S"
  = Some (0, set_pausedAt (Some (Scenarios.t0 + 20000)%Z)
               (set_pausedAt (Some (Scenarios.t0 + 10000)%Z) Scenarios.fresh_session)).
Proof.
  apply (pause_session_overwrites_pausedAt Scenarios.client (Scenarios.t0 + 20000) "S"
           Scenarios.paused_at_10s 0
           (set_pausedAt (Some (Scenarios.t0 + 10000)%Z) Scenarios.fresh_session)).
  vm_compute; reflexivity.
Defined.

(** Against C6 as stated: the session is paused since 10 s; a second pause
    at 20 s moves [pausedAt] to 20 s and is notified like the first, with
    no error. *)
Lemma second_pause_moves_pausedAt :
  status <$> sessions Scenarios.paused_at_10s !! "S" = Some paused /\
  (fun ls => pausedAt ls.2) <$> get_session Scenarios.paused_at_10s "S"
  = Some (Some (Scenarios.t0 + 10000)%Z) /\
  (fun ls => pausedAt ls.2)
    <$> get_session (pause_session Scenarios.client (Scenarios.t0 + 20000) "S"
                       Scenarios.paused_at_10s) "S"
  = Some (Some (Scenarios.t0 + 20000)%Z) /\
  sent (pause_session Scenarios.client (Scenarios.t0 + 20000) "S" Scenarios.paused_at_10s)
  = (sent Scenarios.paused_at_10s ++ [to_room "S" (session_status paused "S")])%list.
Proof. repeat split; vm_compute; reflexivity. Qed.

Lemma pause_then_resume_witness :
  exists s',
    get_session Scenarios.resumed_at_40s "S" = Some (0, s') /\
    totalPausedDuration s' = 30000%Z /\ pausedAt s' = None.
Proof.
  destruct (pause_then_resume Scenarios.client (Scenarios.t0 + 10000) (Scenarios.t0 + 40000)
              "S" Scenarios.started 0 Scenarios.fresh_session Scenarios.fresh_row)
    as (s' & H1 & H2 & H3 & _);
    [vm_compute; reflexivity | vm_compute; reflexivity | reflexivity
    | unfold Scenarios.t0; lia | ].
  exists s'. split; [exact H1|]. split; [exact H2|exact H3].
Defined.

Lemma start_session_replaces_existing_witness :
  get_session (start_session (Scenarios.t0 + 5000) Scenarios.S1 Scenarios.one_chunk_in) "S"
  = Some (1, mkSessionData "S" None [] [] 0 (Scenarios.t0 + 5000) None 0 microphone).
Proof.
  apply (start_session_replaces_existing (Scenarios.t0 + 5000) Scenarios.S1
           Scenarios.one_chunk_in 0 (accept_chunk [] Scenarios.fresh_session)).
  vm_compute; reflexivity.
Defined.

(** Against C8 as stated: "S" is active and has taken one chunk; a second
    start under "S" sends no error and puts a fresh session in its place. *)
Lemma restart_replaces_session :
  get_session Scenarios.one_chunk_in "S"
  = Some (0, mkSessionData "S" None [[]] [] 1 Scenarios.t0 None 0 microphone) /\
  get_session (start_session (Scenarios.t0 + 5000) Scenarios.S1 Scenarios.one_chunk_in) "S"
  = Some (1, mkSessionData "S" None [] [] 0 (Scenarios.t0 + 5000) None 0 microphone) /\
  sent (start_session (Scenarios.t0 + 5000) Scenarios.S1 Scenarios.one_chunk_in)
  = (sent Scenarios.one_chunk_in ++ [to_room "S" (session_status recording "S")])%list.
Proof. repeat split; vm_compute; reflexivity. Qed.

(** The only chunk fails: the session completes with the empty transcript. *)
Lemma failed_chunk_does_not_abort_witness :
  exists w1 t w3 f,
    audio_chunk Scenarios.client (mkChunkData "S" [] (Scenarios.t0 + 30000)) Scenarios.started
    = (w1, Some t) /\
    stop_session_begin Scenarios.client (Scenarios.t0 + 50000) "S"
      (transcription_failed t "Transcription failed for chunk 0" w1) = (w3, Some f) /\
    status <$> sessions (stop_session_finish Scenarios.client f
                           (inl (Gemini.fallback "")) w3) !! "S" = Some completed /\
    transcripts (stop_session_finish Scenarios.client f (inl (Gemini.fallback "")) w3)
    = [mkTranscriptRow "S" "" (Gemini.fallback "")].
Proof.
  destruct (failed_chunk_does_not_abort Scenarios.client
              (mkChunkData "S" [] (Scenarios.t0 + 30000)) "Transcription failed for chunk 0"
              (Scenarios.t0 + 50000) (Gemini.fallback "") Scenarios.started 0
              Scenarios.fresh_session Scenarios.fresh_row)
    as (w1 & t & w3 & f & H1 & _ & _ & _ & H5 & H6 & H7 & _);
    [vm_compute; reflexivity | vm_compute; reflexivity |].
  exists w1, t, w3, f. split; [exact H1|]. split; [exact H5|]. split; [exact H6|exact H7].
Defined.

Lemma failed_summary_leaves_session_registered_witness :
  exists w1 f,
    stop_session_begin Scenarios.client (Scenarios.t0 + 50000) "S" Scenarios.started
    = (w1, Some f) /\
    get_session (stop_session_finish Scenarios.client f
                   (inr "Summary generation failed: quota") w1) "S"
    = Some (0, Scenarios.fresh_session).
Proof.
  destruct (failed_summary_leaves_session_registered Scenarios.client (Scenarios.t0 + 50000)
              "S" "Summary generation failed: quota" Scenarios.started 0
              Scenarios.fresh_session Scenarios.fresh_row)
    as (w1 & f & H1 & _ & _ & H4);
    [vm_compute; reflexivity | vm_compute; reflexivity |].
  exists w1, f. split; [exact H1|exact H4].
Defined.

Lemma disconnect_pauses_unpaused_sessions_witness :
  get_session (disconnect true (Scenarios.t0 + 20000) Scenarios.started) "S"
  = Some (0, set_pausedAt (Some (Scenarios.t0 + 20000)%Z) Scenarios.fresh_session).
Proof.
  apply (disconnect_pauses_unpaused_sessions true (Scenarios.t0 + 20000) Scenarios.started
           "S" 0 Scenarios.fresh_session).
  - exact registry_wf_started.
  - unfold Scenarios.t0; lia.
  - vm_compute; reflexivity.
Defined.

(** C4: two sessions meet a disconnect, with a store client that does not
    send a query nobody awaits.  The first is in [processing] status, its
    stop waiting for the last chunks: the handler sets its [pausedAt] all
    the same, although it says it pauses what is recording.  The second is
    recording: its [pausedAt] is set, but its status stays [recording],
    the update to [paused] being built and never sent. *)
Theorem disconnect_misses_its_own_rule :
  status <$> sessions Scenarios.processing_at_50s !! "S" = Some processing /\
  (fun ls => pausedAt ls.2) <$> get_session Scenarios.processing_at_50s "S" = Some None /\
  (fun ls => pausedAt ls.2)
    <$> get_session (disconnect false (Scenarios.t0 + 51000) Scenarios.processing_at_50s) "S"
  = Some (Some (Scenarios.t0 + 51000)%Z) /\
  status <$> sessions Scenarios.started !! "S" = Some recording /\
  (fun ls => pausedAt ls.2)
    <$> get_session (disconnect false (Scenarios.t0 + 20000) Scenarios.started) "S"
  = Some (Some (Scenarios.t0 + 20000)%Z) /\
  status <$> sessions (disconnect false (Scenarios.t0 + 20000) Scenarios.started) !! "S"
  = Some recording.
Proof. repeat split; vm_compute; reflexivity. Qed.

(** Were the update sent, the session in [processing] status would be put
    back to [paused]. *)
Example disconnect_would_reset_processing :
  status <$> sessions (disconnect true (Scenarios.t0 + 51000) Scenarios.processing_at_50s)
               !! "S" = Some paused.
Proof. vm_compute. reflexivity. Qed.

End RecordingFacts.

(** * More on [generateSummary] *)

Module GeminiMore.
Import Gemini GeminiFacts.


Lemma append_assoc (a b c : string) : a ++ b ++ c = (a ++ b) ++ c.
Proof.
  induction a as [|x a IH]; [done|].
  change (String x (a ++ b ++ c) = String x ((a ++ b) ++ c)). by rewrite IH.
Qed.

Lemma from_open_app pre rest :
  occurs "{" pre = false -> from_open (pre ++ String "{" rest) = Some (String "{" rest).
Proof.
  induction pre as [|c pre IH]; simpl; [done|].
  intros [Hc Hpre]%orb_false_elim. rewrite Hc. by apply IH.
Qed.

Lemma upto_close_none_iff s : upto_close s = None <-> occurs "}" s = false.
Proof.
  split; [apply upto_close_none|].
  induction s as [|c s IH]; simpl; [done|].
  intros [Hc Hs]%orb_false_elim. by rewrite (IH Hs), Hc.
Qed.

Lemma upto_close_app mid post :
  occurs "}" post = false -> upto_close (mid ++ "}" ++ post) = Some (mid ++ "}").
Proof.
  intros Hpost. apply upto_close_none_iff in Hpost.
  induction mid as [|c mid IH].
  - change (upto_close (String "}" post) = Some "}").
    cbn [upto_close]. by rewrite Hpost.
  - change (upto_close (String c (mid ++ "}" ++ post)) = Some (String c (mid ++ "}"))).
    cbn [upto_close]. by rewrite IH.
Qed.

(** X14: the match of [/\{[\s\S]*\}/] is exactly the stretch of the text
    from its first opening brace to its last closing brace. *)
Theorem jsonMatch_first_open_to_last_close text m :
  jsonMatch text = Some m <->
  exists pre mid post,
    text = pre ++ m ++ post /\ m = "{" ++ mid ++ "}" /\
    occurs "{" pre = false /\ occurs "}" post = false.
Proof.
  split; [apply jsonMatch_some|].
  intros (pre & mid & post & -> & -> & Hpre & Hpost).
  assert (E : pre ++ ("{" ++ mid ++ "}") ++ post = pre ++ String "{" (mid ++ "}" ++ post)).
  { f_equal. change (String "{" ((mid ++ "}") ++ post) = String "{" (mid ++ "}" ++ post)).
    f_equal. symmetry. apply append_assoc. }
  rewrite E. unfold jsonMatch.
  rewrite (from_open_app pre _ Hpre). by rewrite (upto_close_app mid post Hpost).
Qed.

(** X15: the expression fails to match exactly when the text has no
    closing brace after an opening one; only then is [JSON.parse] not even
    tried. *)
Theorem jsonMatch_none_without_braces text :
  jsonMatch text = None <->
  ~ exists pre mid post, text = pre ++ "{" ++ mid ++ "}" ++ post.
Proof.
  split.
  - intros H (pre & mid & post & Ht). by eapply jsonMatch_none.
  - intros H. destruct (jsonMatch text) as [m|] eqn:E; [|done].
    destruct H. apply jsonMatch_some in E as (pre & mid & post & -> & -> & _).
    exists pre, mid, post. f_equal.
    change (String "{" ((mid ++ "}") ++ post) = String "{" (mid ++ "}" ++ post)).
    f_equal. symmetry. apply append_assoc.
Qed.

Section Fields.
Variable JSON_parse : string -> option json.

Lemma or_else_truthy a d : json_truthy d = true -> json_truthy (or_else a d) = true.
Proof.
  intros Hd. destruct a as [| |v]; simpl; try done.
  by destruct (json_truthy v) eqn:E.
Qed.

Lemma or_else_cases a d : json_truthy (or_else a d) = true \/ or_else a d = d.
Proof.
  destruct a as [| |v]; simpl; try by right.
  destruct (json_truthy v) eqn:E; [by left|by right].
Qed.

Lemma from_parsed_Some parsed text r :
  from_parsed parsed text = Some r ->
  r = {| summary := or_else (get parsed "summary") (JString text);
         keyPoints := or_else (get parsed "keyPoints") (JArray []);
         actionItems := or_else (get parsed "actionItems") (JArray []);
         decisions := or_else (get parsed "decisions") (JArray []) |}.
Proof.
  unfold from_parsed.
  destruct (get parsed "summary"), (get parsed "keyPoints"),
    (get parsed "actionItems"), (get parsed "decisions"); try discriminate;
    by intros [= <-].
Qed.

(** X16: whatever the model answers and whatever [JSON.parse] makes of it,
    no field of the result is missing or falsy: [keyPoints], [actionItems]
    and [decisions] are truthy values (the empty array at least), and
    [summary] is a truthy value or else the raw text of the answer. *)
Theorem parse_response_fields_present text :
  (json_truthy (summary (parse_response JSON_parse text)) = true \/
   summary (parse_response JSON_parse text) = JString text) /\
  json_truthy (keyPoints (parse_response JSON_parse text)) = true /\
  json_truthy (actionItems (parse_response JSON_parse text)) = true /\
  json_truthy (decisions (parse_response JSON_parse text)) = true.
Proof.
  assert (Hf : (json_truthy (summary (fallback text)) = true \/
                summary (fallback text) = JString text) /\
               json_truthy (keyPoints (fallback text)) = true /\
               json_truthy (actionItems (fallback text)) = true /\
               json_truthy (decisions (fallback text)) = true).
  { split; [by right|done]. }
  unfold parse_response.
  destruct (jsonMatch text) as [m|]; [|exact Hf].
  destruct (JSON_parse m) as [parsed|]; [|exact Hf].
  destruct (from_parsed parsed text) as [r|] eqn:E; [|exact Hf].
  apply from_parsed_Some in E as ->. simpl.
  split; [apply or_else_cases|].
  split; [by apply or_else_truthy|]. split; by apply or_else_truthy.
Qed.
End Fields.

End GeminiMore.

(** * Runs of the recording handlers *)

Module TraceFacts.
Import Recording Trace.


Lemma orphaned_idem now s : orphaned now (orphaned now s) = orphaned now s.
Proof.
  unfold orphaned. destruct (truthy (pausedAt s)) eqn:E; [by rewrite E|].
  simpl. by destruct (Z.eqb_spec now 0).
Qed.

Lemma visits_object dr now es :
  forall w l s,
    heap w !! l = Some s ->
    heap (foldl (auto_pause dr now) w es) !! l = Some s \/
    heap (foldl (auto_pause dr now) w es) !! l = Some (orphaned now s).
Proof.
  induction es as [|e es IH]; intros w l s Hs; simpl; [by left|].
  assert (Hv : heap (auto_pause dr now w e) !! l = Some s \/
               heap (auto_pause dr now w e) !! l = Some (orphaned now s)).
  { unfold auto_pause. destruct (heap w !! e.2) as [s0|] eqn:E; [|by left].
    destruct (truthy (pausedAt s0)) eqn:Et; [by left|].
    destruct (decide (e.2 = l)) as [Heq|Hne].
    - right. rewrite Heq in *. assert (s0 = s) as -> by congruence.
      unfold orphaned. rewrite Et.
      destruct dr; simpl; by rewrite list_lookup_alter_eq, Hs.
    - left. destruct dr; simpl; by rewrite list_lookup_alter_ne. }
  destruct Hv as [Hv|Hv].
  - by apply IH.
  - right. destruct (IH _ _ _ Hv) as [H|H]; [done|]. by rewrite orphaned_idem in H.
Qed.

Lemma lookup_alter_changes {A} (f : A -> A) (h : list A) l0 l s :
  h !! l = Some s -> alter f l0 h !! l = Some s \/ alter f l0 h !! l = Some (f s).
Proof.
  intros H. destruct (decide (l0 = l)) as [->|Hne].
  - right. by rewrite list_lookup_alter_eq, H.
  - left. by rewrite list_lookup_alter_ne.
Qed.

(** Objects are never removed, and an input changes one in one of a few ways. *)
Lemma handle_keeps_objects w i l s :
  heap w !! l = Some s ->
  exists s', heap (handle w i) !! l = Some s' /\ changes i s s'.
Proof.
  intros H. destruct i; simpl.
  - exists s. split; [|constructor]. rewrite lookup_app_l; [done|]. by eapply lookup_lt_Some.
  - unfold audio_chunk. destruct (get_session w _) as [[l0 s0]|]; simpl.
    + destruct (lookup_alter_changes (accept_chunk (chunk data)) (heap w) l0 l s H) as [E|E];
        eexists; (split; [exact E|constructor]).
    + exists s. split; [done|constructor].
  - destruct (lookup_alter_changes (push_transcript (text result)) (heap w) (t_session t) l s H)
      as [E|E]; eexists; (split; [exact E|constructor]).
  - exists s. split; [done|constructor].
  - unfold pause_session. destruct (get_session w sid) as [[l0 s0]|]; simpl.
    + destruct (lookup_alter_changes (set_pausedAt (Some now)) (heap w) l0 l s H) as [E|E];
        eexists; (split; [exact E|constructor]).
    + exists s. split; [done|constructor].
  - unfold resume_session. destruct (get_session w sid) as [[l0 s0]|]; simpl.
    + destruct (lookup_alter_changes (end_pause now) (heap w) l0 l s H) as [E|E];
        eexists; (split; [exact E|constructor]).
    + exists s. split; [done|constructor].
  - unfold stop_session_begin. destruct (get_session w sid) as [[l0 s0]|]; simpl;
      exists s; (split; [done|constructor]).
  - unfold stop_session_finish. destruct outcome; simpl.
    + exists s. split; [done|constructor].
    + destruct (get_session w (f_sessionId f)); simpl; exists s; (split; [done|constructor]).
  - destruct (visits_object detached_runs now (map_to_list (activeSessions w)) w l s H) as [E|E];
      eexists; (split; [exact E|constructor]).
Qed.

Lemma handle_heap_length w i :
  length (heap (handle w i))
  = match i with StartSession _ _ => S (length (heap w)) | _ => length (heap w) end.
Proof.
  destruct i; simpl.
  - rewrite length_app. simpl. lia.
  - unfold audio_chunk. destruct (get_session w _) as [[l0 s0]|]; simpl; [apply length_alter|done].
  - apply length_alter.
  - done.
  - unfold pause_session. destruct (get_session w sid) as [[l0 s0]|]; simpl; [apply length_alter|done].
  - unfold resume_session. destruct (get_session w sid) as [[l0 s0]|]; simpl; [apply length_alter|done].
  - unfold stop_session_begin. by destruct (get_session w sid) as [[l0 s0]|].
  - unfold stop_session_finish. destruct outcome; simpl; [done|].
    by destruct (get_session w (f_sessionId f)).
  - apply RecordingFacts.visits_heap_length.
Qed.

(** Where the objects of the next state come from. *)
Lemma handle_objects w i l s' :
  heap (handle w i) !! l = Some s' ->
  (exists s, heap w !! l = Some s /\ changes i s s') \/
  (exists now data, i = StartSession now data /\ l = length (heap w) /\
                    s' = new_session now data).
Proof.
  intros H. destruct (heap w !! l) as [s|] eqn:E.
  - left. exists s. split; [done|].
    destruct (handle_keeps_objects w i l s E) as (s'' & H' & Hc). congruence.
  - right. apply lookup_ge_None in E.
    pose proof (lookup_lt_Some _ _ _ H) as Hlt. rewrite handle_heap_length in Hlt.
    destruct i; try lia.
    exists now, data. assert (l = length (heap w)) as -> by lia.
    split; [done|]. split; [done|].
    simpl in H. rewrite lookup_app_r, Nat.sub_diag in H by done.
    simpl in H. by injection H as <-.
Qed.

(** An induction principle over the objects of a run. *)
Lemma run_objects (P : SessionData -> Prop) :
  (forall now data, P (new_session now data)) ->
  (forall i s s', P s -> changes i s s' -> P s') ->
  forall inputs l s, heap (run inputs) !! l = Some s -> P s.
Proof.
  intros Hnew Hstep inputs. unfold run.
  induction inputs as [|i inputs IH] using rev_ind; intros l s H.
  - simpl in H. by rewrite lookup_nil in H.
  - rewrite foldl_app in H. simpl in H.
    apply handle_objects in H as [(s0 & H0 & Hc)|(now & data & _ & _ & ->)].
    + eapply Hstep; [|exact Hc]. by eapply IH.
    + apply Hnew.
Qed.


Lemma changes_keeps i s s' :
  changes i s s' ->
  sessionId s' = sessionId s /\ userId s' = userId s /\
  audioSource s' = audioSource s /\ startTime s' = startTime s /\
  audioChunks s `prefix_of` audioChunks s' /\
  transcriptChunks s `prefix_of` transcriptChunks s' /\
  chunkIndex s <= chunkIndex s'.
Proof.
  assert (Hend : forall now, end_pause now s = s \/
            exists p, end_pause now s
              = set_pausedAt None (set_totalPausedDuration (totalPausedDuration s + (now - p)) s)).
  { intros now. unfold end_pause. destruct (pausedAt s) as [p|]; [|by left].
    destruct (truthy (Some p)); [right; by exists p|by left]. }
  destruct 1; simpl; repeat split; try done; try (by apply prefix_app_r); try lia.
  all: try (destruct (Hend now) as [->|[p ->]]; done).
  all: unfold orphaned; by destruct (truthy (pausedAt s)).
Qed.

Lemma run_from_keeps_objects inputs :
  forall w l s,
    heap w !! l = Some s ->
    exists s',
      heap (foldl handle w inputs) !! l = Some s' /\
      sessionId s' = sessionId s /\ userId s' = userId s /\
      audioSource s' = audioSource s /\ startTime s' = startTime s /\
      audioChunks s `prefix_of` audioChunks s' /\
      transcriptChunks s `prefix_of` transcriptChunks s' /\
      chunkIndex s <= chunkIndex s'.
Proof.
  induction inputs as [|i inputs IH]; intros w l s H; simpl.
  - exists s. by repeat split.
  - destruct (handle_keeps_objects w i l s H) as (s1 & H1 & Hc).
    apply changes_keeps in Hc as (E1 & E2 & E3 & E4 & P1 & P2 & Hle).
    destruct (IH _ _ _ H1) as (s' & H' & F1 & F2 & F3 & F4 & Q1 & Q2 & Hle').
    exists s'. split; [done|]. repeat split; try congruence; try lia.
    + by etrans.
    + by etrans.
Qed.

(** X1: whatever happens after, a session object is never removed, its
    [sessionId], [userId], [audioSource] and [startTime] never change, its
    [audioChunks] and [transcriptChunks] only grow at the end, and its
    [chunkIndex] never goes down. *)
Theorem session_state_is_append_only before after l s :
  heap (run before) !! l = Some s ->
  exists s',
    heap (run (before ++ after)) !! l = Some s' /\
    sessionId s' = sessionId s /\ userId s' = userId s /\
    audioSource s' = audioSource s /\ startTime s' = startTime s /\
    audioChunks s `prefix_of` audioChunks s' /\
    transcriptChunks s `prefix_of` transcriptChunks s' /\
    chunkIndex s <= chunkIndex s'.
Proof.
  intros H. unfold run. rewrite foldl_app.
  by apply run_from_keeps_objects.
Qed.

(** X2: a chunk index is never given twice: a chunk accepted later for the
    same session object, whatever happened in between, gets a strictly
    larger index. *)
Theorem chunk_index_never_reused socket data w w1 t inputs socket' data' w2 t' :
  audio_chunk socket data w = (w1, Some t) ->
  audio_chunk socket' data' (foldl handle w1 inputs) = (w2, Some t') ->
  t_session t' = t_session t ->
  t_chunkIndex t < t_chunkIndex t'.
Proof.
  unfold audio_chunk at 1.
  destruct (get_session w (chunk_sessionId data)) as [[l s]|] eqn:Hg; [|discriminate].
  intros [= <- <-]. simpl.
  apply RecordingFacts.get_session_Some in Hg as [_ Hh].
  assert (H1 : heap (emit (to_room (chunk_sessionId data)
                             (chunk_processing (chunkIndex s) (timestamp data)))
                       (mutate l (accept_chunk (chunk data)) w)) !! l
               = Some (accept_chunk (chunk data) s)).
  { simpl. by rewrite list_lookup_alter_eq, Hh. }
  destruct (run_from_keeps_objects inputs _ _ _ H1) as (s' & H' & _ & _ & _ & _ & _ & _ & Hle).
  unfold audio_chunk.
  destruct (get_session _ (chunk_sessionId data')) as [[l' s'']|] eqn:Hg'; [|discriminate].
  intros [= <- <-]. simpl. intros ->.
  apply RecordingFacts.get_session_Some in Hg' as [_ Hh'].
  assert (s'' = s') as -> by congruence.
  simpl in Hle. lia.
Qed.

(** X3: in every run, [chunkIndex] of a session is the number of audio
    buffers it holds: every accepted buffer is kept, none is ever dropped. *)
Theorem chunkIndex_counts_audioChunks inputs l s :
  heap (run inputs) !! l = Some s ->
  chunkIndex s = length (audioChunks s).
Proof.
  revert inputs l s. apply run_objects.
  - done.
  - intros i s s' IH Hc. destruct Hc; simpl; try done.
    + rewrite length_app. simpl. lia.
    + unfold end_pause. destruct (pausedAt s); [|done].
      by destruct (truthy _).
    + unfold orphaned. by destruct (truthy _).
Qed.

(** ** The clock *)

Lemma accounted_later T T' s : (T <= T')%Z -> accounted T s -> accounted T' s.
Proof.
  intros Hle (H0 & H1 & H2). split; [done|]. split; [lia|].
  intros p Hp. destruct (H2 p Hp). split; lia.
Qed.

Lemma accounted_changes T i s s' :
  accounted T s -> changes i s s' ->
  (forall now, reading i = Some now -> (T <= now)%Z) ->
  accounted (default T (reading i)) s' /\
  (totalPausedDuration s <= totalPausedDuration s')%Z.
Proof.
  intros Ha Hc Hr.
  assert (Hle : (T <= default T (reading i))%Z).
  { destruct (reading i) as [now|] eqn:E; simpl; [by apply Hr|lia]. }
  destruct Ha as (H0 & H1 & H2).
  destruct Hc; simpl in *.
  - split; [|lia]. apply (accounted_later T); [done|]. exact (conj H0 (conj H1 H2)).
  - split; [|lia]. exact (conj H0 (conj H1 H2)).
  - split; [|lia]. exact (conj H0 (conj H1 H2)).
  - pose proof (Hr now eq_refl). split; [|lia]. split; [done|]. split; [simpl; lia|].
    simpl. intros p [= <-]. lia.
  - pose proof (Hr now eq_refl). unfold end_pause.
    destruct (pausedAt s) as [p|] eqn:Ep.
    + destruct (H2 p eq_refl). destruct (truthy (Some p)); simpl.
      * split; [|lia]. split; [simpl; lia|]. split; [simpl; lia|]. simpl. done.
      * split; [|lia]. split; [done|]. split; [lia|]. rewrite Ep. intros q [= <-]. lia.
    + split; [|lia]. split; [done|]. split; [lia|]. by rewrite Ep.
  - pose proof (Hr now eq_refl). unfold orphaned.
    destruct (truthy (pausedAt s)); simpl.
    + split; [|lia]. split; [done|]. split; [lia|]. intros p Hp. destruct (H2 p Hp). lia.
    + split; [|lia]. split; [done|]. split; [simpl; lia|]. simpl. intros p [= <-]. lia.
Qed.

Lemma accounted_new now data : accounted now (new_session now data).
Proof. split; [done|]. split; [simpl; lia|]. done. Qed.

Lemma run_from_accounted inputs :
  forall T w,
    monotone T inputs ->
    (forall l s, heap w !! l = Some s -> accounted T s) ->
    forall l s, heap (foldl handle w inputs) !! l = Some s -> accounted (latest T inputs) s.
Proof.
  induction inputs as [|i inputs IH]; intros T w Hm Hw l s H; simpl in *; [by eapply Hw|].
  assert (Hr : forall now, reading i = Some now -> (T <= now)%Z).
  { intros now E. rewrite E in Hm. by destruct Hm. }
  assert (Hm' : monotone (default T (reading i)) inputs).
  { destruct (reading i); simpl; [by destruct Hm|done]. }
  eapply (IH _ (handle w i)); [exact Hm'| |exact H].
  intros l0 s0 H0. apply handle_objects in H0 as [(s1 & H1 & Hc)|(now & data & -> & _ & ->)].
  - by apply (accounted_changes T i s1 s0 (Hw _ _ H1) Hc Hr).
  - apply accounted_new.
Qed.

(** X4: if the clock never runs backwards, the duration that a stop
    computes is never negative, and neither is [totalPausedDuration],
    whatever pauses, resumes, restarts and disconnects came before. *)
Theorem stop_duration_never_negative T inputs socket now sid l s :
  monotone T inputs ->
  (latest T inputs <= now)%Z ->
  get_session (run inputs) sid = Some (l, s) ->
  exists w f,
    stop_session_begin socket now sid (run inputs) = (w, Some f) /\
    (0 <= f_duration f)%Z /\ (0 <= totalPausedDuration s)%Z.
Proof.
  intros Hm Hnow Hg.
  rewrite (RecordingFacts.stop_session_begin_found socket now sid _ l s Hg).
  do 2 eexists. split; [reflexivity|]. simpl.
  apply RecordingFacts.get_session_Some in Hg as [_ Hh].
  destruct (run_from_accounted inputs T boot Hm) with (l := l) (s := s) as (H0 & H1 & _).
  - intros l0 s0 H. simpl in H. by rewrite lookup_nil in H.
  - exact Hh.
  - split; [|done]. unfold stop_duration. apply Z.div_pos; lia.
Qed.

Lemma run_from_total inputs :
  forall T w l s,
    monotone T inputs ->
    (forall l s, heap w !! l = Some s -> accounted T s) ->
    heap w !! l = Some s ->
    exists s', heap (foldl handle w inputs) !! l = Some s' /\
               (totalPausedDuration s <= totalPausedDuration s')%Z.
Proof.
  induction inputs as [|i inputs IH]; intros T w l s Hm Hw H; simpl in *.
  - exists s. split; [done|lia].
  - assert (Hr : forall now, reading i = Some now -> (T <= now)%Z).
    { intros now E. rewrite E in Hm. by destruct Hm. }
    assert (Hm' : monotone (default T (reading i)) inputs).
    { destruct (reading i); simpl; [by destruct Hm|done]. }
    destruct (handle_keeps_objects w i l s H) as (s1 & H1 & Hc).
    destruct (accounted_changes T i s s1 (Hw _ _ H) Hc Hr) as [_ Hle].
    destruct (IH _ (handle w i) l s1 Hm') as (s' & H' & Hle'); [|done|].
    + intros l0 s0 H0. apply handle_objects in H0 as [(s2 & H2 & Hc2)|(now & data & -> & _ & ->)].
      * by apply (accounted_changes T i s2 s0 (Hw _ _ H2) Hc2 Hr).
      * apply accounted_new.
    + exists s'. split; [done|lia].
Qed.


Lemma monotone_app T a b :
  monotone T (a ++ b) <-> monotone T a /\ monotone (latest T a) b.
Proof.
  revert T. induction a as [|i a IH]; intros T; simpl; [tauto|].
  destruct (reading i) as [now|]; simpl; rewrite IH; tauto.
Qed.

(** X5: if the clock never runs backwards, [totalPausedDuration] of a
    session never decreases. *)
Theorem paused_time_never_decreases T before after l s :
  monotone T (before ++ after) ->
  heap (run before) !! l = Some s ->
  exists s',
    heap (run (before ++ after)) !! l = Some s' /\
    (totalPausedDuration s <= totalPausedDuration s')%Z.
Proof.
  intros [Hb Ha]%monotone_app H. unfold run. rewrite foldl_app.
  apply (run_from_total after (latest T before)); [done| |done].
  apply (run_from_accounted before T boot Hb).
  intros l0 s0 H0. simpl in H0. by rewrite lookup_nil in H0.
Qed.

(** ** The registry *)

Lemma handle_registry w i sid l :
  activeSessions (handle w i) !! sid = Some l ->
  activeSessions w !! sid = Some l \/
  (exists now data, i = StartSession now data /\ sid = start_sessionId data /\
                    l = length (heap w)).
Proof.
  destruct i; simpl.
  - intros [[<- <-]|[_ H]]%lookup_insert_Some; [right; eauto|by left].
  - unfold audio_chunk. destruct (get_session w _) as [[l0 s0]|]; simpl; by left.
  - by left.
  - by left.
  - unfold pause_session. destruct (get_session w sid0) as [[l0 s0]|]; simpl; by left.
  - unfold resume_session. destruct (get_session w sid0) as [[l0 s0]|]; simpl; by left.
  - unfold stop_session_begin. destruct (get_session w sid0) as [[l0 s0]|]; simpl; by left.
  - unfold stop_session_finish. destruct outcome; simpl.
    + intros [_ H]%lookup_delete_Some. by left.
    + destruct (get_session w (f_sessionId f)); simpl; by left.
  - rewrite RecordingFacts.disconnect_registry. by left.
Qed.

Lemma run_ids_match inputs sid l s :
  get_session (run inputs) sid = Some (l, s) -> sessionId s = sid.
Proof.
  revert sid l s. induction inputs as [|i inputs IH] using rev_ind; intros sid l s.
  - intros [H _]%RecordingFacts.get_session_Some. simpl in H. by rewrite lookup_empty in H.
  - intros [Hr Hh]%RecordingFacts.get_session_Some.
    unfold run in *. rewrite foldl_app in Hr, Hh. simpl in Hr, Hh.
    pose proof (RecordingFacts.registry_wf_run inputs) as [Hlen _]. unfold run in Hlen.
    apply handle_registry in Hr as [Hr|(now & data & -> & -> & ->)];
      apply handle_objects in Hh as [(s0 & H0 & Hc)|(now' & data' & E & El & ->)].
    + apply changes_keeps in Hc as [-> _]. apply (IH sid l s0).
      by apply RecordingFacts.get_session_Some.
    + apply Hlen in Hr. lia.
    + apply lookup_lt_Some in H0. lia.
    + by injection E as <- <-.
Qed.

(** X6: in every run, an id that is in [activeSessions] resolves to a
    session object, that object carries the same [sessionId], and no other
    id refers to it: "Session not found" is only answered for ids that are
    not active, and two ids never share their state. *)
Theorem active_sessions_resolve inputs sid l :
  activeSessions (run inputs) !! sid = Some l ->
  exists s,
    get_session (run inputs) sid = Some (l, s) /\
    sessionId s = sid /\
    (forall sid', activeSessions (run inputs) !! sid' = Some l -> sid' = sid).
Proof.
  intros H. destruct (RecordingFacts.registry_wf_run inputs) as [Hlen Hinj].
  pose proof (Hlen _ _ H) as Hlt. apply lookup_lt_is_Some in Hlt as [s Hs].
  assert (Hg : get_session (run inputs) sid = Some (l, s))
    by by apply RecordingFacts.get_session_Some.
  exists s. split; [done|]. split; [by eapply run_ids_match|].
  intros sid' H'. by eapply Hinj.
Qed.

(** X7: a start, chunk, pause, resume or stop addressed to one session
    leaves every other session as it is, object and row. *)
Theorem other_sessions_untouched w i sid sid' :
  registry_wf w ->
  addressed i = Some sid ->
  sid' <> sid ->
  get_session (handle w i) sid' = get_session w sid' /\
  sessions (handle w i) !! sid' = sessions w !! sid'.
Proof.
  intros [Hlen Hinj] Ha Hne.
  assert (Hmut : forall l s f, get_session w sid = Some (l, s) ->
            get_session (mutate l f w) sid' = get_session w sid').
  { intros l s f [Hr Hh]%RecordingFacts.get_session_Some. unfold get_session. simpl.
    destruct (activeSessions w !! sid') as [l'|] eqn:E; [|done].
    rewrite list_lookup_alter_ne; [done|]. intros <-. apply Hne. by eapply Hinj. }
  destruct i; simpl in Ha; try discriminate; injection Ha as <-; simpl.
  - split.
    + unfold get_session. simpl. rewrite lookup_insert_ne by done.
      destruct (activeSessions w !! sid') as [l'|] eqn:E; [|done].
      rewrite lookup_app_l; [done|]. by eapply Hlen.
    + unfold insert_row. destruct (sessions w !! start_sessionId data); [done|].
      by rewrite lookup_insert_ne.
  - unfold audio_chunk. destruct (get_session w (chunk_sessionId data)) as [[l s]|] eqn:E;
      simpl; [|done]. split; [|done]. by apply (Hmut l s).
  - unfold pause_session. destruct (get_session w sid0) as [[l s]|] eqn:E; simpl; [|done].
    split; [by apply (Hmut l s)|]. unfold update_row. by rewrite lookup_alter_ne.
  - unfold resume_session. destruct (get_session w sid0) as [[l s]|] eqn:E; simpl; [|done].
    split; [by apply (Hmut l s)|]. unfold update_row. by rewrite lookup_alter_ne.
  - unfold stop_session_begin. destruct (get_session w sid0) as [[l s]|] eqn:E; simpl; [|done].
    split; [done|]. unfold update_row. by rewrite lookup_alter_ne.
  - unfold stop_session_finish. destruct outcome; simpl.
    + split.
      * unfold get_session. simpl. by rewrite lookup_delete_ne.
      * unfold update_row. by rewrite lookup_alter_ne.
    + destruct (get_session w (f_sessionId f)); simpl; [|done].
      split; [done|]. unfold update_row. by rewrite lookup_alter_ne.
Qed.

(** ** Completions that come at the wrong time *)


(** X9: a transcription that completes before the stop handler joins the
    chunks is in the persisted transcript; one that completes after the
    handler went on is not, and its completion leaves the transcript rows as
    they are. *)
Theorem late_transcription_is_dropped socket f summaryData t result w s :
  t_session t = f_session f ->
  heap w !! f_session f = Some s ->
  transcripts (stop_session_finish socket f (inl summaryData) (transcription_done t result w))
  = (transcripts w
     ++ [mkTranscriptRow (f_sessionId f)
           (join " " (transcriptChunks s ++ [text result])) summaryData])%list /\
  transcripts (transcription_done t result (stop_session_finish socket f (inl summaryData) w))
  = (transcripts w
     ++ [mkTranscriptRow (f_sessionId f) (join " " (transcriptChunks s)) summaryData])%list.
Proof.
  intros Ht Hs. unfold stop_session_finish, fullTranscript. simpl.
  rewrite Ht, list_lookup_alter_eq, Hs. done.
Qed.

(** X10: once a stop has completed, a chunk, pause, resume or stop for
    that id is answered with "Session not found" and does nothing else. *)
Theorem completed_session_is_gone socket f summaryData w socket' now data :
  chunk_sessionId data = f_sessionId f ->
  audio_chunk socket' data (stop_session_finish socket f (inl summaryData) w)
  = (emit (to_socket socket' (error "Session not found"))
       (stop_session_finish socket f (inl summaryData) w), None) /\
  pause_session socket' now (f_sessionId f) (stop_session_finish socket f (inl summaryData) w)
  = emit (to_socket socket' (error "Session not found"))
      (stop_session_finish socket f (inl summaryData) w) /\
  resume_session socket' now (f_sessionId f) (stop_session_finish socket f (inl summaryData) w)
  = emit (to_socket socket' (error "Session not found"))
      (stop_session_finish socket f (inl summaryData) w) /\
  stop_session_begin socket' now (f_sessionId f)
    (stop_session_finish socket f (inl summaryData) w)
  = (emit (to_socket socket' (error "Session not found"))
       (stop_session_finish socket f (inl summaryData) w), None).
Proof.
  intros Hid.
  assert (Hg : get_session (stop_session_finish socket f (inl summaryData) w) (f_sessionId f)
               = None).
  { apply RecordingFacts.get_session_None. apply RecordingFacts.summarised_session_is_removed. }
  unfold audio_chunk, pause_session, resume_session, stop_session_begin.
  rewrite Hid, Hg. done.
Qed.

(** ** Pauses that do not pair up *)

Lemma pause_session_lookup socket now sid w l s :
  get_session w sid = Some (l, s) ->
  get_session (pause_session socket now sid w) sid = Some (l, set_pausedAt (Some now) s).
Proof.
  intros H. rewrite (RecordingFacts.pause_session_found socket now sid w l s H).
  exact (RecordingFacts.get_session_mutate _ _ _ _ (set_pausedAt (Some now)) H).
Qed.

(** X11: of two pauses in a row only the second counts: the resume adds
    the time since the second pause, the time between the two is lost. *)
Theorem second_pause_restarts_the_count socket t1 t2 t3 sid w l s :
  get_session w sid = Some (l, s) ->
  t2 <> 0%Z ->
  exists s',
    get_session (resume_session socket t3 sid
                   (pause_session socket t2 sid (pause_session socket t1 sid w))) sid
    = Some (l, s') /\
    totalPausedDuration s' = (totalPausedDuration s + (t3 - t2))%Z /\
    pausedAt s' = None.
Proof.
  intros H Ht2.
  pose proof (pause_session_lookup socket t1 sid w l s H) as H1.
  pose proof (pause_session_lookup socket t2 sid _ l _ H1) as H2.
  destruct (RecordingFacts.resume_session_found socket t3 sid _ l _ H2) as [H3 _].
  eexists. split; [exact H3|].
  unfold end_pause. simpl. by destruct (Z.eqb_spec t2 0).
Qed.

(** X12: a resume of a session that is not paused changes nothing in the
    session, yet it persists and announces the status [recording], whatever
    the status was. *)
Theorem resume_without_pause_rewrites_status socket now sid w l s row :
  get_session w sid = Some (l, s) ->
  truthy (pausedAt s) = false ->
  sessions w !! sid = Some row ->
  get_session (resume_session socket now sid w) sid = Some (l, s) /\
  sessions (resume_session socket now sid w) !! sid = Some (set_status recording row) /\
  sent (resume_session socket now sid w)
  = (sent w ++ [to_room sid (session_status recording sid)])%list.
Proof.
  intros H Hp Hrow.
  destruct (RecordingFacts.resume_session_found socket now sid w l s H) as (H1 & H2 & H3).
  split; [|split; [|done]].
  - rewrite H1. unfold end_pause. destruct (pausedAt s); [|done]. by rewrite Hp.
  - rewrite H2. unfold update_row. by rewrite lookup_alter_eq, Hrow.
Qed.

(** X13: the transcript that a stop would join lists the texts in the
    order in which the transcriptions completed, after those already
    there, one space between two texts. *)
Theorem transcript_lists_completions_in_order done w f s :
  heap w !! f_session f = Some s ->
  Forall (fun c => t_session c.1 = f_session f) done ->
  fullTranscript (complete_all done w) f
  = join " " (transcriptChunks s ++ map (fun c => text c.2) done).
Proof.
  intros Hs Hall. unfold fullTranscript.
  by rewrite (RecordingFacts.complete_all_appends done w (f_session f) s Hs Hall).
Qed.

End TraceFacts.

(** * The speakers of [transcribeWithDiarization] *)

Module DiarizationFacts.
Import Gemini Diarization.


Example speakers_example :
  speakers "[Speaker 2]: hi [Speaker 10]: yo [Speaker 2]: ok [Speaker x] [Speaker 7"
  = Some ["[Speaker 2]"; "[Speaker 10]"].
Proof. vm_compute. reflexivity. Qed.

Lemma unique_spec xs :
  forall seen,
    NoDup (unique seen xs) /\
    (forall x, x ∈ unique seen xs <-> x ∈ xs /\ x ∉ seen) /\
    unique seen xs `sublist_of` xs.
Proof.
  induction xs as [|x xs IH]; intros seen; simpl.
  - split; [constructor|]. split; [|done]. intros x. set_solver.
  - destruct (bool_decide_reflect (x ∈ seen)) as [Hin|Hnin].
    + destruct (IH seen) as (Hnd & Hel & Hsub). split; [done|]. split.
      * intros y. rewrite Hel. set_solver.
      * by apply sublist_cons.
    + destruct (IH (x :: seen)) as (Hnd & Hel & Hsub). split; [|split].
      * constructor; [|done]. rewrite Hel. set_solver.
      * intros y. rewrite elem_of_cons, Hel. split.
        -- intros [->|[H1 H2]]; set_solver.
        -- intros [H1 H2]. destruct (decide (y = x)); set_solver.
      * by apply sublist_skip.
Qed.


(** ** The matches of the expression *)

Lemma strip_Some p s r : strip p s = Some r -> s = p ++ r.
Proof.
  revert s. induction p as [|a p IH]; intros s; simpl; [by intros [= ->]|].
  destruct s as [|b s]; [discriminate|].
  destruct (Ascii.eqb_spec a b) as [->|]; [|discriminate].
  intros H. by rewrite (IH _ H).
Qed.

Lemma strip_app p r : strip p (p ++ r) = Some r.
Proof. induction p as [|a p IH]; simpl; [done|]. by rewrite Ascii.eqb_refl. Qed.

Lemma digits_split s :
  s = (digits s).1 ++ (digits s).2 /\ all_digits (digits s).1 = true.
Proof.
  induction s as [|c s [IH1 IH2]]; simpl; [done|].
  destruct (is_digit c) eqn:E; simpl; [|done].
  rewrite E, IH2. split; [|done].
  change (String c s = String c ((digits s).1 ++ (digits s).2)). by rewrite <- IH1.
Qed.

Lemma digits_app ds c r :
  all_digits ds = true -> is_digit c = false ->
  digits (ds ++ String c r) = (ds, String c r).
Proof.
  intros Hds Hc. induction ds as [|d ds IH]; simpl.
  - by rewrite Hc.
  - simpl in Hds. apply andb_prop in Hds as [Hd Hds]. by rewrite Hd, (IH Hds).
Qed.

Lemma tag_at_Some s m :
  tag_at s = Some m ->
  exists ds post, m = tag ds /\ s = m ++ post /\ ds <> "" /\ all_digits ds = true.
Proof.
  unfold tag_at. destruct (strip "[Speaker " s) as [r|] eqn:Hs; [|discriminate].
  apply strip_Some in Hs as ->.
  destruct (digits_split r) as [Hr Hd].
  destruct (digits r) as [[|d ds] [|c after]]; try discriminate.
  destruct (Ascii.eqb_spec c "]") as [->|]; [|discriminate].
  intros [= <-]. simpl in Hr, Hd. exists (String d ds), after.
  split; [done|]. split; [|done]. rewrite Hr. unfold tag.
  rewrite <- !GeminiMore.append_assoc. done.
Qed.

Lemma tag_at_tag ds post :
  ds <> "" -> all_digits ds = true -> tag_at (tag ds ++ post) = Some (tag ds).
Proof.
  intros Hne Hds. unfold tag_at, tag.
  rewrite <- !GeminiMore.append_assoc, strip_app.
  change ("]" ++ post) with (String "]" post).
  rewrite (digits_app ds "]" post Hds eq_refl).
  destruct ds as [|d ds]; [done|]. by rewrite Ascii.eqb_refl.
Qed.

Lemma matches_sound skip s x :
  x ∈ matches_from skip s ->
  exists pre ds post,
    s = pre ++ x ++ post /\ x = tag ds /\ ds <> "" /\ all_digits ds = true.
Proof.
  revert skip. induction s as [|c s IH]; intros skip; simpl; [by intros ?%elem_of_nil|].
  assert (Hrest : forall k, x ∈ matches_from k s ->
            exists pre ds post,
              String c s = pre ++ x ++ post /\ x = tag ds /\ ds <> "" /\ all_digits ds = true).
  { intros k (pre & ds & post & -> & Hx)%IH. by exists (String c pre), ds, post. }
  destruct skip as [|k]; [|apply Hrest].
  destruct (tag_at (String c s)) as [m|] eqn:Hm; [|apply Hrest].
  intros [->|H]%elem_of_cons; [|by eapply Hrest].
  apply tag_at_Some in Hm as (ds & post & Hm & Hs & Hne & Hds).
  exists "", ds, post. by rewrite Hs at 1.
Qed.

Lemma all_digits_no_bracket ds : all_digits ds = true -> occurs "[" ds = false.
Proof.
  induction ds as [|d ds IH]; simpl; [done|].
  intros [Hd Hds]%andb_prop. rewrite (IH Hds), orb_false_r.
  destruct (Ascii.eqb_spec d "[") as [->|]; [discriminate|done].
Qed.

Lemma no_char_before a x r b d :
  a ++ String x r = b ++ d -> occurs x b = false -> String.length b <= String.length a.
Proof.
  revert b. induction a as [|y a IH]; intros b; simpl.
  - destruct b as [|z b]; simpl; [lia|].
    intros [= <- _]. by rewrite Ascii.eqb_refl.
  - destruct b as [|z b]; simpl; [lia|].
    intros [= _ H] [_ Hb]%orb_false_elim. apply IH in H; [lia|done].
Qed.

Lemma matches_from_here s m : tag_at s = Some m -> m ∈ matches_from 0 s.
Proof.
  destruct s as [|c s]; [discriminate|]. intros H. simpl. rewrite H. by left.
Qed.

Lemma tag_body ds :
  all_digits ds = true ->
  exists body, tag ds = String "[" body /\ occurs "[" body = false.
Proof.
  intros Hds. exists ("Speaker " ++ ds ++ "]"). split; [done|].
  rewrite GeminiFacts.occurs_app. simpl.
  rewrite GeminiFacts.occurs_app, (all_digits_no_bracket ds Hds). done.
Qed.

Lemma matches_complete pre ds post :
  ds <> "" -> all_digits ds = true ->
  forall skip, skip <= String.length pre ->
    tag ds ∈ matches_from skip (pre ++ tag ds ++ post).
Proof.
  intros Hne Hds. induction pre as [|c pre IH]; intros skip Hskip; simpl in Hskip.
  - assert (skip = 0) as -> by lia.
    apply matches_from_here. by apply tag_at_tag.
  - change (String c pre ++ tag ds ++ post) with (String c (pre ++ tag ds ++ post)).
    cbn [matches_from]. destruct skip as [|k]; [|apply IH; lia].
    destruct (tag_at (String c (pre ++ tag ds ++ post))) as [m|] eqn:Hm; [|apply IH; lia].
    right. apply IH.
    apply tag_at_Some in Hm as (ds' & post' & -> & Hs & _ & Hds').
    destruct (tag_body ds' Hds') as (body & Hb & Hno). rewrite Hb in Hs |- *.
    destruct (tag_body ds Hds) as (body0 & Hb0 & _). rewrite Hb0 in Hs.
    injection Hs as _ Hs. simpl.
    rewrite Nat.sub_0_r. by eapply no_char_before.
Qed.

(** X17: every speaker tag in the answer, an opening bracket, "Speaker", a
    space, one or more digits and a closing bracket, is among the speakers
    returned, and the speakers are returned without repetition. *)
Theorem speaker_tags_are_all_found text pre ds post :
  text = pre ++ tag ds ++ post ->
  ds <> "" ->
  all_digits ds = true ->
  exists found, speakers text = Some found /\ tag ds ∈ found /\ NoDup found.
Proof.
  intros -> Hne Hds. unfold speakers, speakerMatches.
  pose proof (matches_complete pre ds post Hne Hds 0 (Nat.le_0_l _)) as Hin.
  destruct (matches_from 0 (pre ++ tag ds ++ post)) as [|m ms] eqn:E;
    [by apply elem_of_nil in Hin|].
  simpl. eexists. split; [reflexivity|].
  destruct (unique_spec (m :: ms) []) as (Hnd & Hel & _).
  split; [|exact Hnd]. apply Hel. split; [done|]. apply not_elem_of_nil.
Qed.

(** X18: when speakers are returned, the list is not empty, has no
    repetition, and each entry is a speaker tag that occurs in the answer. *)
Theorem speakers_are_unique_tags text found :
  speakers text = Some found ->
  found <> [] /\ NoDup found /\
  forall x, x ∈ found ->
    exists pre ds post,
      text = pre ++ x ++ post /\ x = tag ds /\ ds <> "" /\ all_digits ds = true.
Proof.
  unfold speakers, speakerMatches.
  destruct (matches_from 0 text) as [|m ms] eqn:E; [discriminate|].
  intros [= <-]. destruct (unique_spec (m :: ms) []) as (Hnd & Hel & _).
  split; [|split; [exact Hnd|]].
  - simpl. done.
  - intros x [Hx _]%Hel. rewrite <- E in Hx.
    by apply (matches_sound 0).
Qed.

(** X19: [speakers] is left undefined exactly when the answer holds no
    speaker tag. *)
Theorem no_speakers_without_tags text :
  speakers text = None <->
  ~ exists pre ds post,
      text = pre ++ tag ds ++ post /\ ds <> "" /\ all_digits ds = true.
Proof.
  unfold speakers, speakerMatches. split.
  - intros H (pre & ds & post & -> & Hne & Hds).
    pose proof (matches_complete pre ds post Hne Hds 0 (Nat.le_0_l _)) as Hin.
    destruct (matches_from 0 (pre ++ tag ds ++ post)); [|discriminate].
    by apply elem_of_nil in Hin.
  - intros H. destruct (matches_from 0 text) as [|m ms] eqn:E; [done|]. destruct H.
    destruct (matches_sound 0 text m) as (pre & ds & post & Ht & -> & Hd).
    { rewrite E. left. }
    by exists pre, ds, post.
Qed.

End DiarizationFacts.

(** * What the pages show *)

Module FrontendFacts.
Import Recording Frontend Diarization.


Example clock_examples :
  RecordingControls.formatDuration 0 = "00:00" /\
  RecordingControls.formatDuration 65 = "01:05" /\
  RecordingControls.formatDuration 5999 = "99:59" /\
  RecordingControls.formatDuration 6000 = "100:00" /\
  SessionHistory.formatDuration 65 = "1m 5s".
Proof. repeat split; vm_compute; reflexivity. Qed.

Lemma pretty_N_char_digit y : is_digit (pretty_N_char y) = true.
Proof.
  destruct y as [|p]; [done|].
  do 4 (try destruct p as [p|p|]); done.
Qed.

Lemma pretty_N_go_digits x :
  forall s, all_digits s = true -> all_digits (pretty_N_go x s) = true.
Proof.
  induction (N.lt_wf_0 x) as [x _ IH]. intros s Hs.
  destruct (decide (x = 0%N)) as [->|Hx]; [by rewrite pretty_N_go_0|].
  rewrite pretty_N_go_step by lia. apply IH.
  - apply N.div_lt; lia.
  - simpl. by rewrite pretty_N_char_digit.
Qed.

Lemma toString_digits n : (0 <= n)%Z -> all_digits (toString n) = true.
Proof.
  intros Hn. unfold toString, pretty, pretty_Z. destruct n as [|p|p]; [done| |lia].
  unfold pretty, pretty_positive, pretty, pretty_N.
  case_decide; [done|]. by apply pretty_N_go_digits.
Qed.

(** Two texts that start with digits up to a character that is none. *)
Lemma digits_then_other a x r b y r' :
  all_digits a = true -> all_digits b = true ->
  is_digit x = false -> is_digit y = false ->
  a ++ String x r = b ++ String y r' -> a = b /\ x = y /\ r = r'.
Proof.
  intros Ha Hb Hx Hy. revert b Hb.
  induction a as [|c a IH]; intros [|d b] Hb; simpl in *.
  - by intros [= -> ->].
  - intros [= -> _]. apply andb_prop in Hb as [Hd _]. congruence.
  - intros [= -> _]. apply andb_prop in Ha as [Hc _]. congruence.
  - intros [= -> H]. apply andb_prop in Ha as [_ Ha]. apply andb_prop in Hb as [_ Hb].
    destruct (IH Ha b Hb H) as (-> & -> & ->). done.
Qed.

(** X20: in the session list, two different durations never read the
    same. *)
Theorem history_duration_is_injective a b :
  (0 <= a)%Z -> (0 <= b)%Z ->
  SessionHistory.formatDuration a = SessionHistory.formatDuration b -> a = b.
Proof.
  intros Ha Hb. unfold SessionHistory.formatDuration. cbv zeta.
  rewrite !Z.rem_mod_nonneg by lia.
  intros H.
  change (toString (a / 60) ++ String "m" (" " ++ toString (a mod 60) ++ "s")
          = toString (b / 60) ++ String "m" (" " ++ toString (b mod 60) ++ "s")) in H.
  apply digits_then_other in H as (Hm & _ & H);
    [|apply toString_digits; by apply Z.div_pos|apply toString_digits; by apply Z.div_pos
     |done|done].
  change (String " " (toString (a mod 60) ++ "s") = String " " (toString (b mod 60) ++ "s")) in H.
  injection H as H.
  apply digits_then_other in H as (Hs & _ & _);
    [|apply toString_digits; by apply Z.mod_pos_bound
     |apply toString_digits; by apply Z.mod_pos_bound|done|done].
  apply (inj pretty) in Hm, Hs.
  rewrite (Z.div_mod a 60), (Z.div_mod b 60) by lia. congruence.
Qed.









(** ** The live transcript *)






End FrontendFacts.

(** * The properties above on concrete sessions and texts *)

Module Instances.
Import Recording Trace Diarization Frontend.

Lemma session_state_is_append_only_witness :
  exists s',
    heap (run ([StartSession Scenarios.t0 Scenarios.S1]
               ++ [AudioChunk Scenarios.client
                     (mkChunkData "S" [] (Scenarios.t0 + 30000))])) !! 0 = Some s' /\
    startTime s' = Scenarios.t0 /\ 0 <= chunkIndex s'.
Proof.
  destruct (TraceFacts.session_state_is_append_only
              [StartSession Scenarios.t0 Scenarios.S1]
              [AudioChunk Scenarios.client (mkChunkData "S" [] (Scenarios.t0 + 30000))]
              0 Scenarios.fresh_session)
    as (s' & H & _ & _ & _ & Hst & _ & _ & Hle); [vm_compute; reflexivity|].
  exists s'. split; [exact H|]. split; [exact Hst|exact Hle].
Defined.

Lemma chunk_index_never_reused_witness :
  t_chunkIndex (mkTranscription 0 "S" 0 (Scenarios.t0 + 30000))
  < t_chunkIndex (mkTranscription 0 "S" 1 (Scenarios.t0 + 60000)).
Proof.
  apply (TraceFacts.chunk_index_never_reused Scenarios.client
           (mkChunkData "S" [] (Scenarios.t0 + 30000)) Scenarios.started
           Scenarios.one_chunk_in (mkTranscription 0 "S" 0 (Scenarios.t0 + 30000))
           [PauseSession Scenarios.client (Scenarios.t0 + 40000) "S"]
           Scenarios.client (mkChunkData "S" [] (Scenarios.t0 + 60000))
           (audio_chunk Scenarios.client (mkChunkData "S" [] (Scenarios.t0 + 60000))
              (foldl handle Scenarios.one_chunk_in
                 [PauseSession Scenarios.client (Scenarios.t0 + 40000) "S"])).1).
  - vm_compute; reflexivity.
  - vm_compute; reflexivity.
  - reflexivity.
Defined.

Lemma chunkIndex_counts_audioChunks_witness :
  chunkIndex (accept_chunk [] Scenarios.fresh_session)
  = length (audioChunks (accept_chunk [] Scenarios.fresh_session)).
Proof.
  apply (TraceFacts.chunkIndex_counts_audioChunks
           [StartSession Scenarios.t0 Scenarios.S1;
            AudioChunk Scenarios.client (mkChunkData "S" [] (Scenarios.t0 + 30000))] 0).
  vm_compute; reflexivity.
Defined.

Lemma stop_duration_never_negative_witness :
  exists w f,
    stop_session_begin Scenarios.client (Scenarios.t0 + 50000) "S"
      (run [StartSession Scenarios.t0 Scenarios.S1;
            PauseSession Scenarios.client (Scenarios.t0 + 10000) "S";
            ResumeSession Scenarios.client (Scenarios.t0 + 40000) "S"])
    = (w, Some f) /\ (0 <= f_duration f)%Z.
Proof.
  destruct (TraceFacts.stop_duration_never_negative 0
              [StartSession Scenarios.t0 Scenarios.S1;
               PauseSession Scenarios.client (Scenarios.t0 + 10000) "S";
               ResumeSession Scenarios.client (Scenarios.t0 + 40000) "S"]
              Scenarios.client (Scenarios.t0 + 50000) "S" 0
              (set_totalPausedDuration 30000 Scenarios.fresh_session))
    as (w & f & H & Hd & _).
  - simpl. unfold Scenarios.t0. lia.
  - simpl. lia.
  - vm_compute; reflexivity.
  - exists w, f. split; [exact H|exact Hd].
Defined.

Lemma paused_time_never_decreases_witness :
  exists s',
    heap (run ([StartSession Scenarios.t0 Scenarios.S1;
                PauseSession Scenarios.client (Scenarios.t0 + 10000) "S"]
               ++ [ResumeSession Scenarios.client (Scenarios.t0 + 40000) "S"])) !! 0
    = Some s' /\ (0 <= totalPausedDuration s')%Z.
Proof.
  destruct (TraceFacts.paused_time_never_decreases 0
              [StartSession Scenarios.t0 Scenarios.S1;
               PauseSession Scenarios.client (Scenarios.t0 + 10000) "S"]
              [ResumeSession Scenarios.client (Scenarios.t0 + 40000) "S"] 0
              (set_pausedAt (Some (Scenarios.t0 + 10000)%Z) Scenarios.fresh_session))
    as (s' & H & Hle).
  - simpl. unfold Scenarios.t0. lia.
  - vm_compute; reflexivity.
  - exists s'. split; [exact H|exact Hle].
Defined.

Lemma active_sessions_resolve_witness :
  exists s,
    get_session (run [StartSession Scenarios.t0 Scenarios.S1]) "S" = Some (0, s) /\
    sessionId s = "S".
Proof.
  destruct (TraceFacts.active_sessions_resolve [StartSession Scenarios.t0 Scenarios.S1] "S" 0)
    as (s & H & Hid & _); [vm_compute; reflexivity|].
  exists s. split; [exact H|exact Hid].
Defined.

Lemma other_sessions_untouched_witness :
  get_session (handle (run [StartSession Scenarios.t0 Scenarios.S1;
                            StartSession (Scenarios.t0 + 1000)
                              (mkStartData "T" None tab_share)])
                 (PauseSession Scenarios.client (Scenarios.t0 + 5000) "S")) "T"
  = get_session (run [StartSession Scenarios.t0 Scenarios.S1;
                      StartSession (Scenarios.t0 + 1000)
                        (mkStartData "T" None tab_share)]) "T".
Proof.
  apply (TraceFacts.other_sessions_untouched _
           (PauseSession Scenarios.client (Scenarios.t0 + 5000) "S") "S" "T").
  - apply RecordingFacts.registry_wf_run.
  - reflexivity.
  - discriminate.
Defined.


Lemma late_transcription_is_dropped_witness :
  transcripts (transcription_done (mkTranscription 0 "S" 0 (Scenarios.t0 + 30000))
                 (mkResult "late" None)
                 (stop_session_finish Scenarios.client (mkFinalization 0 "S" 50)
                    (inl (Gemini.fallback "")) Scenarios.one_chunk_in))
  = [mkTranscriptRow "S" "" (Gemini.fallback "")].
Proof.
  apply (TraceFacts.late_transcription_is_dropped Scenarios.client (mkFinalization 0 "S" 50)
           (Gemini.fallback "") (mkTranscription 0 "S" 0 (Scenarios.t0 + 30000))
           (mkResult "late" None) Scenarios.one_chunk_in
           (accept_chunk [] Scenarios.fresh_session)).
  - reflexivity.
  - vm_compute; reflexivity.
Defined.

Lemma completed_session_is_gone_witness :
  pause_session Scenarios.client (Scenarios.t0 + 60000) "S"
    (stop_session_finish Scenarios.client (mkFinalization 0 "S" 50)
       (inl (Gemini.fallback "")) Scenarios.one_chunk_in)
  = emit (to_socket Scenarios.client (error "Session not found"))
      (stop_session_finish Scenarios.client (mkFinalization 0 "S" 50)
         (inl (Gemini.fallback "")) Scenarios.one_chunk_in).
Proof.
  apply (TraceFacts.completed_session_is_gone Scenarios.client (mkFinalization 0 "S" 50)
           (Gemini.fallback "") Scenarios.one_chunk_in Scenarios.client
           (Scenarios.t0 + 60000) (mkChunkData "S" [] (Scenarios.t0 + 60000))).
  reflexivity.
Defined.

Lemma second_pause_restarts_the_count_witness :
  exists s',
    get_session (resume_session Scenarios.client (Scenarios.t0 + 40000) "S"
                   (pause_session Scenarios.client (Scenarios.t0 + 20000) "S"
                      Scenarios.paused_at_10s)) "S" = Some (0, s') /\
    totalPausedDuration s' = 20000%Z.
Proof.
  destruct (TraceFacts.second_pause_restarts_the_count Scenarios.client
              (Scenarios.t0 + 10000) (Scenarios.t0 + 20000) (Scenarios.t0 + 40000) "S"
              Scenarios.started 0 Scenarios.fresh_session)
    as (s' & H & Ht & _); [vm_compute; reflexivity|unfold Scenarios.t0; lia|].
  exists s'. split; [exact H|]. rewrite Ht. vm_compute; reflexivity.
Defined.

Lemma resume_without_pause_rewrites_status_witness :
  sessions (resume_session Scenarios.client (Scenarios.t0 + 51000) "S"
              Scenarios.processing_at_50s) !! "S"
  = Some (set_status recording (mkSessionRow None processing microphone 50)).
Proof.
  apply (TraceFacts.resume_without_pause_rewrites_status Scenarios.client
           (Scenarios.t0 + 51000) "S" Scenarios.processing_at_50s 0 Scenarios.fresh_session
           (mkSessionRow None processing microphone 50)).
  - vm_compute; reflexivity.
  - reflexivity.
  - vm_compute; reflexivity.
Defined.

Lemma transcript_lists_completions_in_order_witness :
  fullTranscript
    (complete_all [(mkTranscription 0 "S" 1 (Scenarios.t0 + 60000), mkResult "world" None);
                   (mkTranscription 0 "S" 0 (Scenarios.t0 + 30000), mkResult "hello" None)]
       Scenarios.one_chunk_in)
    (mkFinalization 0 "S" 61)
  = "world hello".
Proof.
  apply (TraceFacts.transcript_lists_completions_in_order
           [(mkTranscription 0 "S" 1 (Scenarios.t0 + 60000), mkResult "world" None);
            (mkTranscription 0 "S" 0 (Scenarios.t0 + 30000), mkResult "hello" None)]
           Scenarios.one_chunk_in (mkFinalization 0 "S" 61)
           (accept_chunk [] Scenarios.fresh_session)).
  - vm_compute; reflexivity.
  - repeat constructor.
Defined.

Lemma speaker_tags_are_all_found_witness :
  exists found,
    speakers "[Speaker 1]: hello [Speaker 12]: hi" = Some found /\
    tag "12" ∈ found.
Proof.
  destruct (DiarizationFacts.speaker_tags_are_all_found
              "[Speaker 1]: hello [Speaker 12]: hi" "[Speaker 1]: hello " "12" ": hi")
    as (found & H & Hin & _); [reflexivity|discriminate|reflexivity|].
  exists found. split; [exact H|exact Hin].
Defined.

Lemma speakers_are_unique_tags_witness :
  NoDup ["[Speaker 1]"; "[Speaker 12]"].
Proof.
  apply (DiarizationFacts.speakers_are_unique_tags
           "[Speaker 1]: hello [Speaker 12]: hi [Speaker 1]: bye").
  vm_compute; reflexivity.
Defined.

Lemma history_duration_is_injective_witness : 3725%Z = (3600 + 125)%Z.
Proof.
  apply FrontendFacts.history_duration_is_injective; [lia|lia|].
  vm_compute; reflexivity.
Defined.



End Instances.
